(** * mergeifc: merging IFC files with colour priority

    A shallow embedding of [mergeifc.py] and the properties of its
    deduplication policy.

    The script drives an external model library (ifcopenshell).  What
    the script itself does (which entities it hands to [add], in which
    order, under which set-membership tests, what it prints, when it
    exits) is embedded definition by definition.  What the library and
    the Python runtime do (does a path exist, does a file open, does a
    single [add] raise, how a type inherits from another, how a string
    is lower-cased, what a write leaves on disk) is a field of
    [Library]: every theorem holds for every library.

    The output model is kept as the log of the script's calls of [add]
    that returned.  What the model then holds (the library transplants
    the entities an added entity refers to, and holds an instance once)
    is computed from that log by [output_model], after the
    specification's description of the library; the totals the script
    prints at the end are counted there. *)

From Stdlib Require Import QArith.
From stdpp Require Import gmap strings list pretty.

Local Open Scope Z_scope.
Local Open Scope string_scope.
Local Open Scope list_scope.

(** ** Entities, files, and the output model *)

(** An entity instance as the script sees it: [entity.id()],
    [entity.is_a()], and the attributes the script reads.  [Name] is
    [None] when the attribute is null (or the type has none: the script
    guards with [hasattr] wherever the type is not known to carry it).
    [GlobalId] distinguishes "no such attribute" ([None]) from a null
    value ([Some None]).  A colour component is the exact value of the
    parsed float, [None] when null.  [refs] holds the identifiers of
    the entities of the same file that its attributes refer to: the
    script never reads them, the library follows them when the entity is
    added to another model. *)
Record Entity := mkEntity {
  ifc_id : Z;
  is_a : string;
  Name : option string;
  GlobalId : option (option string);
  Red : option Q;
  Green : option Q;
  Blue : option Q;
  refs : list Z
}.

(** A parsed file: its schema name and its entities in iteration order. *)
Record IfcFile := mkIfcFile {
  schema : string;
  entities : list Entity
}.

(** The outcome of a call that may raise an [Exception]. *)
Inductive Try (A : Type) : Type :=
  | Ok (a : A)
  | Raise (msg : string).
Arguments Ok {A} a.
Arguments Raise {A} msg.

(** One call [merged_model.add(entity)] of the script that returned: the
    entity handed over and the path of the file whose model it was read
    from. *)
Record Copied := mkCopied {
  origin : string;
  ent : Entity
}.

(** The output model as the script drives it:
    [ifcopenshell.file(schema=...)] followed by the log of the script's
    own calls of [add] that returned, oldest first.  [copied] is that
    log, not the content of the model: what the library transplants
    along with an entity, and what it declines to add a second time, is
    computed from the log by [output_model] below. *)
Record Merged := mkMerged {
  merged_schema : string;
  copied : list Copied
}.

(** ** The external collaborators *)

Record Library (FS : Type) := mkLibrary {
  (** [os.path.exists(path)] *)
  path_exists : FS → string → bool;
  (** [ifcopenshell.open(path)] *)
  ifc_open : FS → string → Try IfcFile;
  (** does [merged_model.add(entity)] raise, and with which message *)
  add_raises : Merged → Copied → option string;
  (** [merged_model.write(path)], the model being given by the calls
      of [add] made on it: the file system it leaves, and the message
      of the exception when it raises *)
  ifc_write : FS → string → Merged → FS * option string;
  (** [inherits s t u]: in schema [s], type [t] is [u] or a subtype of it *)
  inherits : string → string → string → bool;
  (** [str.lower()] *)
  lower : string → string;
  (** [str(entity)] *)
  entity_str : Entity → string
}.
Arguments path_exists {FS} _ _ _.
Arguments ifc_open {FS} _ _ _.
Arguments add_raises {FS} _ _ _.
Arguments ifc_write {FS} _ _ _ _.
Arguments inherits {FS} _ _ _ _.
Arguments lower {FS} _ _.
Arguments entity_str {FS} _ _.

(** The five "known" sets together with the output model: the state the
    merge loop threads from file to file. *)
Record MergeState := mkMergeState {
  merged_model : Merged;
  known_materials : gset string;
  known_surface_styles : gset string;
  known_styled_items : gset Z;
  known_colours : gset Z;
  known_presentation_styles : gset Z
}.

(** How a run of a function ends: it returns, or [sys.exit(code)]. *)
Inductive Completion : Type :=
  | Returned
  | Exited (code : Z).

(** The process's view of the outside: the file system and what has
    been printed so far (one string per [print] call). *)
Record World (FS : Type) := mkWorld {
  fs : FS;
  stdout : list string
}.
Arguments mkWorld {FS} _ _.
Arguments fs {FS} _.
Arguments stdout {FS} _.

Definition nl : string := String (Ascii.ascii_of_nat 10) "".

(** Python truthiness of an optional string: [None] and [""] are false. *)
Definition truthy (o : option string) : option string :=
  match o with
  | Some s => if decide (s = "") then None else Some s
  | None => None
  end.

Section Merge.
Context {FS : Type} (lib : Library FS).

(** [model.by_type(T)]: the entities whose type is [T] or inherits
    from it, in the model's order. *)
Definition by_type (model : IfcFile) (T : string) : list Entity :=
  filter (λ e, inherits lib (schema model) (is_a e) T = true) (entities model).

(** [merged_model.by_type(T)], on the content of the output model *)
Definition merged_by_type (mm : Merged) (T : string) : list Copied :=
  filter (λ c, inherits lib (merged_schema mm) (is_a (ent c)) T = true) (copied mm).

(** [merged_model.add(entity)] as the script sees it: the call raises
    or returns, and a call that returned is logged. *)
Definition add (mm : Merged) (c : Copied) : Try Merged :=
  match add_raises lib mm c with
  | None => Ok (mkMerged (merged_schema mm) (copied mm ++ [c]))
  | Some msg => Raise msg
  end.

(** [x.Name.lower() if x.Name else f"unnamed_{x.id()}"] *)
Definition name_key (x : Entity) : string :=
  match truthy (Name x) with
  | Some n => lower lib n
  | None => "unnamed_" +:+ pretty (ifc_id x)
  end.

(** [{x.Name.lower() for x in xs if x.Name}] *)
Definition named_keys (xs : list Entity) : gset string :=
  list_to_set (omap (λ x, lower lib <$> truthy (Name x)) xs).

(** [{x.id() for x in xs}] *)
Definition id_keys (xs : list Entity) : gset Z :=
  list_to_set (ifc_id <$> xs).

(** The loop shape shared by passes 1 to 5:
<<
    for x in xs:
        if key(x) not in known:
            try:
                merged_model.add(x)
                known.add(key(x))
            except:
                pass
>> *)
Fixpoint dedup_loop `{Countable K} (key : Entity → K) (file_path : string)
    (xs : list Entity) (mm : Merged) (known : gset K) : Merged * gset K :=
  match xs with
  | [] => (mm, known)
  | x :: rest =>
      if decide (key x ∈ known) then dedup_loop key file_path rest mm known
      else
        match add mm (mkCopied file_path x) with
        | Ok mm' => dedup_loop key file_path rest mm' (known ∪ {[ key x ]})
        | Raise _ => dedup_loop key file_path rest mm known
        end
  end.

(** The loop shape of passes 6 and 7:
<<
    for x in xs:
        try:
            merged_model.add(x)
        except:
            pass
>> *)
Fixpoint copy_loop (file_path : string) (xs : list Entity) (mm : Merged) : Merged :=
  match xs with
  | [] => mm
  | x :: rest =>
      match add mm (mkCopied file_path x) with
      | Ok mm' => copy_loop file_path rest mm'
      | Raise _ => copy_loop file_path rest mm
      end
  end.

(** 1. colours *)
Definition pass_colours (file_path : string) (current_model : IfcFile)
    (st : MergeState) : MergeState :=
  let '(mm, known) :=
    dedup_loop ifc_id file_path (by_type current_model "IfcColourRgb")
      (merged_model st) (known_colours st) in
  mkMergeState mm (known_materials st) (known_surface_styles st)
    (known_styled_items st) known (known_presentation_styles st).

(** 2. presentation-style assignments *)
Definition pass_presentation_styles (file_path : string) (current_model : IfcFile)
    (st : MergeState) : MergeState :=
  let '(mm, known) :=
    dedup_loop ifc_id file_path
      (by_type current_model "IfcPresentationStyleAssignment")
      (merged_model st) (known_presentation_styles st) in
  mkMergeState mm (known_materials st) (known_surface_styles st)
    (known_styled_items st) (known_colours st) known.

(** 3. surface styles *)
Definition pass_surface_styles (file_path : string) (current_model : IfcFile)
    (st : MergeState) : MergeState :=
  let '(mm, known) :=
    dedup_loop name_key file_path (by_type current_model "IfcSurfaceStyle")
      (merged_model st) (known_surface_styles st) in
  mkMergeState mm (known_materials st) known
    (known_styled_items st) (known_colours st) (known_presentation_styles st).

(** 4. materials *)
Definition pass_materials (file_path : string) (current_model : IfcFile)
    (st : MergeState) : MergeState :=
  let '(mm, known) :=
    dedup_loop name_key file_path (by_type current_model "IfcMaterial")
      (merged_model st) (known_materials st) in
  mkMergeState mm known (known_surface_styles st)
    (known_styled_items st) (known_colours st) (known_presentation_styles st).

(** 5. styled items *)
Definition pass_styled_items (file_path : string) (current_model : IfcFile)
    (st : MergeState) : MergeState :=
  let '(mm, known) :=
    dedup_loop ifc_id file_path (by_type current_model "IfcStyledItem")
      (merged_model st) (known_styled_items st) in
  mkMergeState mm (known_materials st) (known_surface_styles st)
    known (known_colours st) (known_presentation_styles st).

Definition with_merged (st : MergeState) (mm : Merged) : MergeState :=
  mkMergeState mm (known_materials st) (known_surface_styles st)
    (known_styled_items st) (known_colours st) (known_presentation_styles st).

(** 6. material-association relations *)
Definition pass_material_relations (file_path : string) (current_model : IfcFile)
    (st : MergeState) : MergeState :=
  with_merged st
    (copy_loop file_path (by_type current_model "IfcRelAssociatesMaterial")
       (merged_model st)).

(** 7. presentation-layer assignments *)
Definition pass_layers (file_path : string) (current_model : IfcFile)
    (st : MergeState) : MergeState :=
  with_merged st
    (copy_loop file_path (by_type current_model "IfcPresentationLayerAssignment")
       (merged_model st)).

(** The type names the final sweep skips. *)
Definition handled_types : list string :=
  ["IfcColourRgb"; "IfcPresentationStyleAssignment";
   "IfcSurfaceStyle"; "IfcMaterial"; "IfcStyledItem";
   "IfcRelAssociatesMaterial"; "IfcPresentationLayerAssignment"].

(** What the sweep prints when an [add] raises. *)
Definition sweep_warning (file_path : string) (entity : Entity) : list string :=
  match truthy (Name entity) with
  | Some n =>
      ["  Предупреждение: Не удалось добавить сущность " +:+ n +:+ " ("
         +:+ pretty (ifc_id entity) +:+ ") из " +:+ file_path
         +:+ ". Возможно, дубликат или конфликт."]
  | None =>
      match GlobalId entity with
      | Some g =>
          ["  Предупреждение: Не удалось добавить сущность с GlobalId "
             +:+ default "None" g +:+ " из " +:+ file_path +:+ "."]
      | None => []
      end
  end.

(** 8. every other entity *)
Fixpoint sweep (file_path : string) (xs : list Entity) (mm : Merged)
    : Merged * list string :=
  match xs with
  | [] => (mm, [])
  | entity :: rest =>
      if decide (is_a entity ∈ handled_types) then sweep file_path rest mm
      else
        match add mm (mkCopied file_path entity) with
        | Ok mm' => sweep file_path rest mm'
        | Raise _ =>
            let '(mm', out) := sweep file_path rest mm in
            (mm', (sweep_warning file_path entity ++ out)%list)
        end
  end.

(** Passes 1 to 5 of one secondary file, in the order of the source. *)
Definition dedup_passes (file_path : string) (current_model : IfcFile)
    (st : MergeState) : MergeState :=
  pass_styled_items file_path current_model
    (pass_materials file_path current_model
      (pass_surface_styles file_path current_model
        (pass_presentation_styles file_path current_model
          (pass_colours file_path current_model st)))).

(** Passes 6 and 7. *)
Definition copy_passes (file_path : string) (current_model : IfcFile)
    (st : MergeState) : MergeState :=
  pass_layers file_path current_model
    (pass_material_relations file_path current_model st).

(** Everything the loop body does with an opened secondary model. *)
Definition process_model (file_path : string) (current_model : IfcFile)
    (st : MergeState) : MergeState * list string :=
  let st7 := copy_passes file_path current_model
               (dedup_passes file_path current_model st) in
  let '(mm, out) := sweep file_path (entities current_model) (merged_model st7) in
  (with_merged st7 mm, out).

(** The body of [for i, file_path in enumerate(input_files[1:], 1)]
    (the counter [i] is never read). *)
Definition merge_file (fsys : FS) (file_path : string) (st : MergeState)
    : MergeState * list string :=
  if path_exists lib fsys file_path then
    match ifc_open lib fsys file_path with
    | Ok current_model =>
        let '(st', out) := process_model file_path current_model st in
        (st', ("Обрабатывается дополнительный файл: " +:+ file_path +:+ " ("
                 +:+ pretty (length (by_type current_model "IfcProduct"))
                 +:+ " IfcProducts)") :: out)
    | Raise e =>
        (st, ["Ошибка при обработке файла " +:+ file_path +:+ ": " +:+ e
                +:+ ". Файл будет пропущен."])
    end
  else
    (st, ["Предупреждение: Файл не найден и будет пропущен: " +:+ file_path]).

Fixpoint merge_rest (fsys : FS) (files : list string) (st : MergeState)
    : MergeState * list string :=
  match files with
  | [] => (st, [])
  | file_path :: rest =>
      let '(st1, out1) := merge_file fsys file_path st in
      let '(st2, out2) := merge_rest fsys rest st1 in
      (st2, out1 ++ out2)
  end.

(** [for entity in base_model: try: merged_model.add(entity) ...] *)
Fixpoint add_base (base_model_path : string) (xs : list Entity) (mm : Merged)
    : Merged * list string :=
  match xs with
  | [] => (mm, [])
  | entity :: rest =>
      match add mm (mkCopied base_model_path entity) with
      | Ok mm' => add_base base_model_path rest mm'
      | Raise e =>
          let '(mm', out) := add_base base_model_path rest mm in
          (mm', ("  Предупреждение: Не удалось добавить сущность "
                   +:+ entity_str lib entity +:+ " из основного файла: " +:+ e)
                :: out)
      end
  end.

(** Step 1 of the merge: the first [try] block.  [None] stands for
    [sys.exit(1)]. *)
Definition import_base (fsys : FS) (base_model_path : string)
    : option MergeState * list string :=
  if path_exists lib fsys base_model_path then
    match ifc_open lib fsys base_model_path with
    | Ok base_model =>
        let '(mm, out) := add_base base_model_path (entities base_model)
                            (mkMerged (schema base_model) []) in
        (Some (mkMergeState mm
                 (named_keys (by_type base_model "IfcMaterial"))
                 (named_keys (by_type base_model "IfcSurfaceStyle"))
                 (id_keys (by_type base_model "IfcStyledItem"))
                 (id_keys (by_type base_model "IfcColourRgb"))
                 (id_keys (by_type base_model "IfcPresentationStyleAssignment"))),
         ("Используется схема IFC: " +:+ schema base_model +:+ " (из "
            +:+ base_model_path +:+ ")")
         :: ("Обрабатывается основной файл: " +:+ base_model_path +:+ " ("
               +:+ pretty (length (by_type base_model "IfcProduct"))
               +:+ " IfcProducts)")
         :: out)
    | Raise e =>
        (None,
         ["Критическая ошибка: Не удалось открыть или обработать основной файл ("
            +:+ base_model_path +:+ "). Убедитесь, что он корректен.";
          "Детали ошибки: " +:+ e])
    end
  else
    (None, ["Ошибка: Основной файл не найден: " +:+ base_model_path]).

Definition prints (w : World FS) (out : list string) : World FS :=
  mkWorld (fs w) (stdout w ++ out).

(** *** What the library puts in the output model *)

(** The entity of [model] with identifier [i], if any. *)
Fixpoint find_entity (xs : list Entity) (i : Z) : option Entity :=
  match xs with
  | [] => None
  | x :: rest => if decide (ifc_id x = i) then Some x else find_entity rest i
  end.

(** Modelled from the spec: the library's [Model.add] (§6), absent from
    the sources: it "transplants an entity (and transitively required
    references not yet present) into this model".  [held] are the
    entities of this opened file that the output model holds already;
    an instance it holds is not added again, the entities [x] refers to
    come before [x].  [fuel] bounds the depth of the references
    followed; the number of entities of the file is enough. *)
Fixpoint transplant (fuel : nat) (model : IfcFile) (held : list Entity)
    (x : Entity) : list Entity :=
  if decide (ifc_id x ∈ ifc_id <$> held) then held
  else
    match fuel with
    | O => held ++ [x]
    | S fuel' =>
        let held' :=
          foldl (λ h r,
                   match find_entity (entities model) r with
                   | Some y => transplant fuel' model h y
                   | None => h
                   end) held (refs x) in
        if decide (ifc_id x ∈ ifc_id <$> held') then held' else held' ++ [x]
    end.

(** What the output model holds of one opened file after the calls of
    [add] that returned on the entities [xs], in this order. *)
Definition transplant_all (model : IfcFile) (xs : list Entity) : list Entity :=
  foldl (transplant (length (entities model)) model) [] xs.

(** The calls of [add] that returned between two states. *)
Definition direct_calls (st st' : MergeState) : list Copied :=
  drop (length (copied (merged_model st))) (copied (merged_model st')).

(** What one secondary file contributes to the output model.  Each
    [ifcopenshell.open] yields instances of its own: a path listed twice
    contributes twice. *)
Definition file_content (fsys : FS) (file_path : string) (st : MergeState)
    : list Copied :=
  if path_exists lib fsys file_path then
    match ifc_open lib fsys file_path with
    | Ok current_model =>
        mkCopied file_path
          <$> transplant_all current_model
                (ent <$> direct_calls st (merge_file fsys file_path st).1)
    | Raise _ => []
    end
  else [].

Fixpoint rest_content (fsys : FS) (files : list string) (st : MergeState)
    : list Copied :=
  match files with
  | [] => []
  | file_path :: rest =>
      file_content fsys file_path st
      ++ rest_content fsys rest (merge_file fsys file_path st).1
  end.

(** The content of the output model after the merge of
    [base_model_path :: rest], [st] being the state the base importer
    left. *)
Definition output_model (fsys : FS) (base_model_path : string)
    (rest : list string) (st : MergeState) : Merged :=
  mkMerged (merged_schema (merged_model st))
    (match ifc_open lib fsys base_model_path with
     | Ok base_model =>
         mkCopied base_model_path
           <$> transplant_all base_model (ent <$> copied (merged_model st))
     | Raise _ => []
     end
     ++ rest_content fsys rest st).

(** The last [try] block: write the output model and report.  [mm] is
    the log the library's write is determined by, [content] what the
    model holds. *)
Definition write_merged (output_file : string) (mm content : Merged)
    (w : World FS) : World FS :=
  match ifc_write lib (fs w) output_file mm with
  | (fs', None) =>
      mkWorld fs'
        (stdout w ++
         [nl +:+ "Успешно объединено в: " +:+ output_file;
          "Общее количество IfcProducts в объединенной модели: "
            +:+ pretty (length (merged_by_type content "IfcProduct"));
          "Общее количество материалов: "
            +:+ pretty (length (merged_by_type content "IfcMaterial"));
          "Общее количество стилей поверхности: "
            +:+ pretty (length (merged_by_type content "IfcSurfaceStyle"));
          "Общее количество стилизованных элементов: "
            +:+ pretty (length (merged_by_type content "IfcStyledItem"))])
  | (fs', Some e) =>
      mkWorld fs'
        (stdout w ++
         [nl +:+ "Ошибка при записи объединенного файла " +:+ output_file
            +:+ ": " +:+ e])
  end.

Definition merge_ifc_files_with_color_priority (input_files : list string)
    (output_file : string) (w : World FS) : Completion * World FS :=
  match input_files with
  | [] =>
      (Returned, prints w ["Ошибка: Не указаны входные файлы для объединения."])
  | base_model_path :: rest =>
      match import_base (fs w) base_model_path with
      | (None, out) => (Exited 1, prints w out)
      | (Some st, out) =>
          let '(st', out') := merge_rest (fs w) rest st in
          (Returned,
           write_merged output_file (merged_model st')
             (output_model (fs w) base_model_path rest st)
             (prints w (out ++ out')))
      end
  end.
End Merge.

(** ** The analyzer and the command line *)

(** [f"{x:.3f}"] on a finite float, given as its exact rational value:
    correctly rounded to three decimals, ties to even. *)
Definition round_half_even (n : Z) (d : positive) : Z :=
  let q := n / Z.pos d in
  let r := n mod Z.pos d in
  if (2 * r <? Z.pos d)%Z then q
  else if (Z.pos d <? 2 * r)%Z then q + 1
  else if Z.even q then q else q + 1.

Definition digit_char (d : Z) : Ascii.ascii := Ascii.ascii_of_nat (48 + Z.to_nat d).

Definition digits3 (k : Z) : string :=
  String (digit_char (k / 100))
    (String (digit_char (k / 10 mod 10)) (String (digit_char (k mod 10)) "")).

Definition format_3f (x : Q) : string :=
  let m := round_half_even (Z.abs (Qnum x) * 1000) (Qden x) in
  (if (Qnum x <? 0)%Z then "-" else "") +:+ pretty (m / 1000) +:+ "." +:+ digits3 (m mod 1000).

(** [f"  - RGB({colour.Red:.3f}, {colour.Green:.3f}, {colour.Blue:.3f})"];
    formatting a null component raises [TypeError]. *)
Definition rgb_line (colour : Entity) : Try string :=
  match Red colour, Green colour, Blue colour with
  | Some r, Some g, Some b =>
      Ok ("  - RGB(" +:+ format_3f r +:+ ", " +:+ format_3f g +:+ ", "
            +:+ format_3f b +:+ ")")
  | _, _, _ => Raise "unsupported format string passed to NoneType.__format__"
  end.

(** [for colour in colours: print(...)]: what got printed, and the
    exception that stopped the loop, if any. *)
Fixpoint rgb_lines (colours : list Entity) : list string * option string :=
  match colours with
  | [] => ([], None)
  | colour :: rest =>
      match rgb_line colour with
      | Ok line => let '(out, e) := rgb_lines rest in (line :: out, e)
      | Raise e => ([], Some e)
      end
  end.

(** [f"  - {x.Name if x.Name else 'Unnamed'}"] *)
Definition name_line (x : Entity) : string :=
  "  - " +:+ default "Unnamed" (truthy (Name x)).

Fixpoint repeat_string (n : nat) (s : string) : string :=
  match n with
  | O => ""
  | S n' => s +:+ repeat_string n' s
  end.

Definition banner : list string :=
  ["IFC Files Merger with Color Priority";
   "Original concept: Google Gemini | Material improvements: Claude | Initiated by: Ivan Rodionov"].

Definition usage : list string :=
  banner ++
  ["";
   "Requirements: pip install ifcopenshell";
   "";
   "Usage:";
   "  python ifc_merger.py <output_file.ifc> <base_file.ifc> <file2.ifc> [file3.ifc ...]";
   "  python ifc_merger.py --analyze <file.ifc>";
   "";
   "The first file in the list (after output) will be used as the base for color scheme."].

Section Program.
Context {FS : Type} (lib : Library FS).

(** The body of the analyzer's [try] block on an opened model: the
    lines printed, and the exception that cut it short, if any. *)
Definition report (model : IfcFile) : list string * option string :=
  let materials := by_type lib model "IfcMaterial" in
  let surface_styles := by_type lib model "IfcSurfaceStyle" in
  let styled_items := by_type lib model "IfcStyledItem" in
  let colours := by_type lib model "IfcColourRgb" in
  let material_relations := by_type lib model "IfcRelAssociatesMaterial" in
  let head :=
    ["Материалы: " +:+ pretty (length materials)]
    ++ (name_line <$> take 5 materials)
    ++ ["Стили поверхности: " +:+ pretty (length surface_styles)]
    ++ (name_line <$> take 5 surface_styles)
    ++ ["Стилизованные элементы: " +:+ pretty (length styled_items)]
    ++ ["RGB цвета: " +:+ pretty (length colours)] in
  match rgb_lines (take 3 colours) with
  | (out, None) =>
      (head ++ out ++ ["Связи материалов: " +:+ pretty (length material_relations)],
       None)
  | (out, Some e) => (head ++ out, Some e)
  end.

Definition validate_ifc_colors (ifc_file : string) (w : World FS) : World FS :=
  let w := prints w [nl +:+ "=== Анализ цветовой информации в " +:+ ifc_file +:+ " ==="] in
  match ifc_open lib (fs w) ifc_file with
  | Ok model =>
      match report model with
      | (out, None) => prints w out
      | (out, Some e) => prints w (out ++ ["Ошибка при анализе файла: " +:+ e])
      end
  | Raise e => prints w ["Ошибка при анализе файла: " +:+ e]
  end.

(** The [__main__] block on [sys.argv]: the exit status of the process
    and the world it leaves. *)
Definition main (argv : list string) (w : World FS) : Z * World FS :=
  if decide (3 ≤ length argv ∧ argv !! 1%nat = Some "--analyze")%nat then
    (0, validate_ifc_colors (default "" (argv !! 2%nat)) w)
  else if decide (length argv < 3)%nat then
    (1, prints w usage)
  else
    let output_ifc := default "" (argv !! 1%nat) in
    let input_ifc_files := drop 2 argv in
    let w := prints w (banner ++ [repeat_string 80 "="]) in
    let w := prints w ["=== Analysis of source file ==="] in
    let w := validate_ifc_colors (default "" (input_ifc_files !! 0%nat)) w in
    match merge_ifc_files_with_color_priority lib input_ifc_files output_ifc w with
    | (Exited code, w) => (code, w)
    | (Returned, w) =>
        let w := prints w [nl +:+ "=== Analysis of result ==="] in
        (0, validate_ifc_colors output_ifc w)
    end.
End Program.

(** ** Vocabulary of the statements *)

(** What a deduplicating pass is allowed to do, in the words of the
    specification: out of the candidates [xs] (in their order) it has
    copied [cs]; every copied entity had a key that was not known, no
    two copied entities share a key, and the known set has grown by
    exactly the keys of the copied entities. *)
Definition dedup_copied `{Countable K} (key : Entity → K) (known : gset K)
    (xs cs : list Entity) (known' : gset K) : Prop :=
  sublist cs xs
  ∧ (∀ x, x ∈ cs → key x ∉ known)
  ∧ NoDup (key <$> cs)
  ∧ known' = known ∪ list_to_set (key <$> cs).

(** The five known sets of two states agree. *)
Definition same_known (st st' : MergeState) : Prop :=
  known_materials st = known_materials st'
  ∧ known_surface_styles st = known_surface_styles st'
  ∧ known_styled_items st = known_styled_items st'
  ∧ known_colours st = known_colours st'
  ∧ known_presentation_styles st = known_presentation_styles st'.

(** What the script has added to the output model between two states. *)
Definition added (st st' : MergeState) (new : list Copied) : Prop :=
  merged_schema (merged_model st') = merged_schema (merged_model st)
  ∧ copied (merged_model st') = copied (merged_model st) ++ new.

(** The seven passes of one secondary model [m] read from [p], in the
    words of the specification: the entities added between [st] and
    [st'] are, in this order, those copied by the five deduplicating
    passes, by the two unconditional passes, and by the final sweep. *)
Definition merged_in_order {FS : Type} (lib : Library FS) (p : string)
    (m : IfcFile) (st st' : MergeState) : Prop :=
  ∃ c1 c2 c3 c4 c5 c6 c7 c8,
    added st st' (mkCopied p <$> (c1 ++ c2 ++ c3 ++ c4 ++ c5 ++ c6 ++ c7 ++ c8))
    ∧ dedup_copied ifc_id (known_colours st)
        (by_type lib m "IfcColourRgb") c1 (known_colours st')
    ∧ dedup_copied ifc_id (known_presentation_styles st)
        (by_type lib m "IfcPresentationStyleAssignment") c2
        (known_presentation_styles st')
    ∧ dedup_copied (name_key lib) (known_surface_styles st)
        (by_type lib m "IfcSurfaceStyle") c3 (known_surface_styles st')
    ∧ dedup_copied (name_key lib) (known_materials st)
        (by_type lib m "IfcMaterial") c4 (known_materials st')
    ∧ dedup_copied ifc_id (known_styled_items st)
        (by_type lib m "IfcStyledItem") c5 (known_styled_items st')
    ∧ sublist c6 (by_type lib m "IfcRelAssociatesMaterial")
    ∧ sublist c7 (by_type lib m "IfcPresentationLayerAssignment")
    ∧ sublist c8 (filter (λ x, is_a x ∉ handled_types) (entities m)).

(** What the specification says a deduplicating pass does with one
    candidate [x], the output model being [mm] and the known set
    [known] when its turn comes: nothing if its key is known; otherwise
    the copy is attempted, and only if it succeeds is the entity in the
    output model and its key in the known set. *)
Inductive dedup_step {FS : Type} (lib : Library FS) {K : Type} `{Countable K}
    (key : Entity → K) (p : string) (x : Entity)
    : Merged * gset K → Merged * gset K → Prop :=
  | dedup_step_known mm known :
      key x ∈ known →
      dedup_step lib key p x (mm, known) (mm, known)
  | dedup_step_copied mm known :
      key x ∉ known →
      add_raises lib mm (mkCopied p x) = None →
      dedup_step lib key p x (mm, known)
        (mkMerged (merged_schema mm) (copied mm ++ [mkCopied p x]),
         known ∪ {[ key x ]})
  | dedup_step_failed mm known e :
      key x ∉ known →
      add_raises lib mm (mkCopied p x) = Some e →
      dedup_step lib key p x (mm, known) (mm, known).

(** What an unconditional pass does with one candidate: the copy is
    attempted whatever the known sets hold. *)
Inductive copy_step {FS : Type} (lib : Library FS) (p : string) (x : Entity)
    : Merged → Merged → Prop :=
  | copy_step_copied mm :
      add_raises lib mm (mkCopied p x) = None →
      copy_step lib p x mm (mkMerged (merged_schema mm) (copied mm ++ [mkCopied p x]))
  | copy_step_failed mm e :
      add_raises lib mm (mkCopied p x) = Some e →
      copy_step lib p x mm mm.

(** What the sweep does with one entity: nothing if its type name is one
    of the seven; otherwise the copy is attempted, and a failure prints
    the warning of [sweep_warning] (none for an entity it cannot name). *)
Inductive sweep_step {FS : Type} (lib : Library FS) (p : string) (x : Entity)
    : Merged * list string → Merged * list string → Prop :=
  | sweep_step_handled mm out :
      is_a x ∈ handled_types →
      sweep_step lib p x (mm, out) (mm, out)
  | sweep_step_copied mm out :
      is_a x ∉ handled_types →
      add_raises lib mm (mkCopied p x) = None →
      sweep_step lib p x (mm, out)
        (mkMerged (merged_schema mm) (copied mm ++ [mkCopied p x]), out)
  | sweep_step_failed mm out e :
      is_a x ∉ handled_types →
      add_raises lib mm (mkCopied p x) = Some e →
      sweep_step lib p x (mm, out) (mm, out ++ sweep_warning p x).

(** A pass takes its candidates one after the other, in their order. *)
Inductive pass_over {S : Type} (step : Entity → S → S → Prop)
    : list Entity → S → S → Prop :=
  | pass_over_nil s : pass_over step [] s s
  | pass_over_cons x xs s s' s'' :
      step x s s' → pass_over step xs s' s'' → pass_over step (x :: xs) s s''.

(** The seven passes over the opened model [m] of [p], in the order of
    the specification, lead from [st] to [st7]: each pass starts from
    the output model the previous one left. *)
Definition seven_passes {FS : Type} (lib : Library FS) (p : string)
    (m : IfcFile) (st st7 : MergeState) : Prop :=
  ∃ mm1 mm2 mm3 mm4 mm5 mm6,
    pass_over (dedup_step lib ifc_id p) (by_type lib m "IfcColourRgb")
      (merged_model st, known_colours st) (mm1, known_colours st7)
    ∧ pass_over (dedup_step lib ifc_id p)
        (by_type lib m "IfcPresentationStyleAssignment")
        (mm1, known_presentation_styles st) (mm2, known_presentation_styles st7)
    ∧ pass_over (dedup_step lib (name_key lib) p) (by_type lib m "IfcSurfaceStyle")
        (mm2, known_surface_styles st) (mm3, known_surface_styles st7)
    ∧ pass_over (dedup_step lib (name_key lib) p) (by_type lib m "IfcMaterial")
        (mm3, known_materials st) (mm4, known_materials st7)
    ∧ pass_over (dedup_step lib ifc_id p) (by_type lib m "IfcStyledItem")
        (mm4, known_styled_items st) (mm5, known_styled_items st7)
    ∧ pass_over (copy_step lib p) (by_type lib m "IfcRelAssociatesMaterial")
        mm5 mm6
    ∧ pass_over (copy_step lib p) (by_type lib m "IfcPresentationLayerAssignment")
        mm6 (merged_model st7).

(** The types with a deduplicating pass of their own. *)
Definition dedup_types : list string :=
  ["IfcColourRgb"; "IfcPresentationStyleAssignment";
   "IfcSurfaceStyle"; "IfcMaterial"; "IfcStyledItem"].

(** In every schema, none of the seven handled types inherits from
    another one of them. *)
Definition unrelated {FS : Type} (lib : Library FS) : Prop :=
  ∀ s T U, T ∈ handled_types → U ∈ handled_types → T ≠ U →
           inherits lib s T U = false.

(** No [add] ever raises. *)
Definition never_raises {FS : Type} (lib : Library FS) : Prop :=
  ∀ mm c, add_raises lib mm c = None.

(** The exact type name of [x] is one of the five deduplicated types
    and its key is recorded in the matching known set of [st].  (An
    instance of a subtype is a candidate of the pass as well; it is not
    covered here.) *)
Definition known_entity {FS : Type} (lib : Library FS) (st : MergeState)
    (x : Entity) : Prop :=
  (is_a x = "IfcColourRgb" ∧ ifc_id x ∈ known_colours st)
  ∨ (is_a x = "IfcPresentationStyleAssignment"
     ∧ ifc_id x ∈ known_presentation_styles st)
  ∨ (is_a x = "IfcSurfaceStyle" ∧ name_key lib x ∈ known_surface_styles st)
  ∨ (is_a x = "IfcMaterial" ∧ name_key lib x ∈ known_materials st)
  ∨ (is_a x = "IfcStyledItem" ∧ ifc_id x ∈ known_styled_items st).

(** Each known set of [st] is included in that of [st']. *)
Definition known_included (st st' : MergeState) : Prop :=
  known_materials st ⊆ known_materials st'
  ∧ known_surface_styles st ⊆ known_surface_styles st'
  ∧ known_styled_items st ⊆ known_styled_items st'
  ∧ known_colours st ⊆ known_colours st'
  ∧ known_presentation_styles st ⊆ known_presentation_styles st'.

(** The keys of every entity a deduplicating pass would look at in
    [m] are already known in [st]. *)
Definition absorbed {FS : Type} (lib : Library FS) (m : IfcFile)
    (st : MergeState) : Prop :=
  (∀ x, x ∈ by_type lib m "IfcColourRgb" → ifc_id x ∈ known_colours st)
  ∧ (∀ x, x ∈ by_type lib m "IfcPresentationStyleAssignment" →
          ifc_id x ∈ known_presentation_styles st)
  ∧ (∀ x, x ∈ by_type lib m "IfcSurfaceStyle" →
          name_key lib x ∈ known_surface_styles st)
  ∧ (∀ x, x ∈ by_type lib m "IfcMaterial" → name_key lib x ∈ known_materials st)
  ∧ (∀ x, x ∈ by_type lib m "IfcStyledItem" → ifc_id x ∈ known_styled_items st).

#[global] Instance Q_eq_dec : EqDecision Q.
Proof. solve_decision. Defined.

#[global] Instance Entity_eq_dec : EqDecision Entity.
Proof. solve_decision. Defined.

#[global] Instance Copied_eq_dec : EqDecision Copied.
Proof. solve_decision. Defined.

(** How many calls of [add] on [c] are in the log [l]. *)
Definition occurrences (c : Copied) (l : list Copied) : nat :=
  length (filter (λ c', c' = c) l).

(** [x] is a material (exact type name) filed under key [k]. *)
Definition material_under {FS : Type} (lib : Library FS) (k : string)
    (x : Entity) : Prop :=
  is_a x = "IfcMaterial" ∧ name_key lib x = k.

#[global] Instance material_under_dec {FS : Type} (lib : Library FS) k x :
  Decision (material_under lib k x).
Proof. unfold material_under. apply _. Defined.

(** All three components of a colour are present. *)
Definition has_rgb (c : Entity) : Prop :=
  is_Some (Red c) ∧ is_Some (Green c) ∧ is_Some (Blue c).

(** A decimal digit. *)
Definition is_digit (c : Ascii.ascii) : Prop :=
  (48 ≤ Ascii.nat_of_ascii c ≤ 57)%nat.

(** A number printed with exactly three digits after the point. *)
Definition three_decimals (s : string) : Prop :=
  ∃ sign whole frac,
    s = sign +:+ whole +:+ "." +:+ frac
    ∧ (sign = "" ∨ sign = "-")
    ∧ String.length frac = 3%nat
    ∧ Forall is_digit (String.list_ascii_of_string frac).

(** A sample line of the colour section of the report. *)
Definition rgb_sample_line (line : string) : Prop :=
  ∃ r g b,
    line = "  - RGB(" +:+ r +:+ ", " +:+ g +:+ ", " +:+ b +:+ ")"
    ∧ three_decimals r ∧ three_decimals g ∧ three_decimals b.

(** The sample line of the colour [c]: its three components, each
    through the three-decimal format. *)
Definition colour_sample (c : Entity) (line : string) : Prop :=
  ∃ r g b,
    Red c = Some r ∧ Green c = Some g ∧ Blue c = Some b
    ∧ line = "  - RGB(" +:+ format_3f r +:+ ", " +:+ format_3f g +:+ ", "
               +:+ format_3f b +:+ ")".

(** The lines the analyzer prints after its header for an opened model,
    line by line: the counts of the four categories, the names of the
    first five materials and surface styles, nothing more for the
    styled items, the sample lines of the first three colours; then the
    count of the material relations, or, at the first of these colours
    with a null component, the logged error in its place. *)
Definition analysis_shows {FS : Type} (lib : Library FS) (model : IfcFile)
    (body : list string) : Prop :=
  let materials := by_type lib model "IfcMaterial" in
  let surface_styles := by_type lib model "IfcSurfaceStyle" in
  let styled_items := by_type lib model "IfcStyledItem" in
  let colours := by_type lib model "IfcColourRgb" in
  let material_relations := by_type lib model "IfcRelAssociatesMaterial" in
  ∃ shown rgbs tail,
    body
    = ["Материалы: " +:+ pretty (length materials)]
      ++ (name_line <$> take 5 materials)
      ++ ["Стили поверхности: " +:+ pretty (length surface_styles)]
      ++ (name_line <$> take 5 surface_styles)
      ++ ["Стилизованные элементы: " +:+ pretty (length styled_items);
          "RGB цвета: " +:+ pretty (length colours)]
      ++ rgbs ++ tail
    ∧ Forall2 colour_sample shown rgbs
    ∧ Forall rgb_sample_line rgbs
    ∧ ((shown = take 3 colours
        ∧ tail = ["Связи материалов: " +:+ pretty (length material_relations)])
       ∨ (∃ c rest,
            take 3 colours = shown ++ c :: rest
            ∧ ¬ has_rgb c
            ∧ tail = ["Ошибка при анализе файла: "
                        +:+ "unsupported format string passed to NoneType.__format__"])).

(** The entry [c] was read from a listed file: its origin exists and
    opens, and its entity is one of that file's entities. *)
Definition read_from {FS : Type} (lib : Library FS) (fsys : FS) (c : Copied) : Prop :=
  path_exists lib fsys (origin c) = true
  ∧ ∃ m, ifc_open lib fsys (origin c) = Ok m ∧ ent c ∈ entities m.

(** The entry [c] is a candidate of the pass over type [T] in the file
    it was read from. *)
Definition candidate_of {FS : Type} (lib : Library FS) (fsys : FS) (T : string)
    (c : Copied) : Prop :=
  ∃ m, ifc_open lib fsys (origin c) = Ok m ∧ ent c ∈ by_type lib m T.

(** Every key of [known'] was in [known] already or is the key of an
    entry of [new] that was a candidate of the pass over type [T]. *)
Definition recorded_from {FS : Type} (lib : Library FS) (fsys : FS)
    {K : Type} `{Countable K} (key : Entity → K) (T : string)
    (known known' : gset K) (new : list Copied) : Prop :=
  ∀ k, k ∈ known' →
       k ∈ known ∨ ∃ c, c ∈ new ∧ candidate_of lib fsys T c ∧ key (ent c) = k.


(** The sweep can name the entity in a warning: it has a non-empty
    name or a [GlobalId] attribute. *)
Definition reportable (x : Entity) : Prop :=
  is_Some (truthy (Name x)) ∨ is_Some (GlobalId x).

(** ** A concrete library, for examples *)

Module Example.
Definition ascii_lower_char (c : Ascii.ascii) : Ascii.ascii :=
  let n := Ascii.nat_of_ascii c in
  if decide (65 ≤ n ≤ 90)%nat then Ascii.ascii_of_nat (n + 32) else c.

Fixpoint ascii_lower (s : string) : string :=
  match s with
  | EmptyString => EmptyString
  | String c r => String (ascii_lower_char c) (ascii_lower r)
  end.

(** A disk is a list of named files, newest first. *)
Definition disk : Type := list (string * IfcFile).

Fixpoint disk_lookup (d : disk) (p : string) : option IfcFile :=
  match d with
  | [] => None
  | (q, f) :: r => if decide (q = p) then Some f else disk_lookup r p
  end.

(** A library over a flat schema (no type inherits from another) in
    which no [add] and no [write] ever raises. *)
Definition flat : Library disk := {|
  path_exists d p := bool_decide (is_Some (disk_lookup d p));
  ifc_open d p :=
    match disk_lookup d p with
    | Some f => Ok f
    | None => Raise "cannot open"
    end;
  add_raises _ _ := None;
  ifc_write d p mm := ((p, mkIfcFile (merged_schema mm) (ent <$> copied mm)) :: d, None);
  inherits _ t u := bool_decide (t = u);
  lower := ascii_lower;
  entity_str e := "#" +:+ pretty (ifc_id e) +:+ "=" +:+ is_a e
|}.

Definition plain (i : Z) (T : string) (n : option string) : Entity :=
  mkEntity i T n None None None None [].

Definition rgb (i : Z) (r g b : Q) : Entity :=
  mkEntity i "IfcColourRgb" None None (Some r) (Some g) (Some b) [].

Definition empty_state : MergeState :=
  mkMergeState (mkMerged "IFC4" []) ∅ ∅ ∅ ∅ ∅.

Definition base_file : IfcFile :=
  mkIfcFile "IFC4"
    [plain 1 "IfcMaterial" (Some "Concrete");
     rgb 2 (1 # 2) (1 # 3) (2 # 3);
     plain 3 "IfcSurfaceStyle" (Some "Grey");
     plain 4 "IfcStyledItem" None;
     mkEntity 5 "IfcWall" (Some "W1") (Some (Some "0aB")) None None None []].

Definition second_file : IfcFile :=
  mkIfcFile "IFC4"
    [plain 1 "IfcMaterial" (Some "CONCRETE");
     plain 5 "IfcMaterial" None;
     plain 7 "IfcMaterial" (Some "Steel");
     rgb 8 (1 # 4) (1 # 4) (1 # 4);
     plain 9 "IfcRelAssociatesMaterial" None;
     plain 10 "IfcPresentationLayerAssignment" (Some "Layer");
     mkEntity 11 "IfcWall" (Some "W2") (Some (Some "1cD")) None None None []].

Definition third_file : IfcFile :=
  mkIfcFile "IFC4"
    [plain 5 "IfcMaterial" None;
     plain 6 "IfcSurfaceStyle" None].

Definition site : disk :=
  [("base.ifc", base_file); ("b.ifc", second_file); ("c.ifc", third_file)].

(** The state the merge loop starts from on [site]. *)
Definition base_state : MergeState :=
  default empty_state (import_base flat site "base.ifc").1.

(** The flat library with one subtype: a layer assignment with style is
    a layer assignment. *)
Definition layered : Library disk := {|
  path_exists := path_exists flat;
  ifc_open := ifc_open flat;
  add_raises := add_raises flat;
  ifc_write := ifc_write flat;
  inherits _ t u :=
    bool_decide (t = u)
    || bool_decide (t = "IfcPresentationLayerWithStyle"
                    ∧ u = "IfcPresentationLayerAssignment");
  lower := ascii_lower;
  entity_str := entity_str flat
|}.

Definition layer_site : disk :=
  [("base.ifc", base_file);
   ("l.ifc",
    mkIfcFile "IFC4" [plain 20 "IfcPresentationLayerWithStyle" (Some "A-WALL")])].

(** The flat library on a disk that cannot be written. *)
Definition read_only : Library disk := {|
  path_exists := path_exists flat;
  ifc_open := ifc_open flat;
  add_raises := add_raises flat;
  ifc_write d p mm := (d, Some "Permission denied");
  inherits := inherits flat;
  lower := ascii_lower;
  entity_str := entity_str flat
|}.

(** The flat library with the annotation occurrences of IFC2X3, which
    are styled items. *)
Definition annotated : Library disk := {|
  path_exists := path_exists flat;
  ifc_open := ifc_open flat;
  add_raises := add_raises flat;
  ifc_write := ifc_write flat;
  inherits _ t u :=
    bool_decide (t = u)
    || bool_decide (t = "IfcAnnotationSurfaceOccurrence" ∧ u = "IfcStyledItem");
  lower := ascii_lower;
  entity_str := entity_str flat
|}.

(** A base file with the styled item #4, and a secondary file with two
    annotation occurrences, one of them numbered 4 as well. *)
Definition annotation_file : IfcFile :=
  mkIfcFile "IFC2X3"
    [plain 4 "IfcAnnotationSurfaceOccurrence" None;
     plain 30 "IfcAnnotationSurfaceOccurrence" None].

Definition annotation_site : disk :=
  [("base.ifc",
    mkIfcFile "IFC2X3" [plain 4 "IfcStyledItem" None]);
   ("a.ifc", annotation_file)].

Definition annotation_state : MergeState :=
  default empty_state (import_base annotated annotation_site "base.ifc").1.

(** An entity that refers to others. *)
Definition referring (i : Z) (T : string) (rs : list Z) : Entity :=
  mkEntity i T None None None None None rs.

(** A base file with the material "Concrete", and a secondary file with
    the material "CONCRETE", a wall, and the relation that associates
    the material with the wall. *)
Definition relation_file : IfcFile :=
  mkIfcFile "IFC4"
    [plain 1 "IfcMaterial" (Some "CONCRETE");
     mkEntity 2 "IfcWall" (Some "W") (Some (Some "2eF")) None None None [];
     referring 3 "IfcRelAssociatesMaterial" [2; 1]].

Definition relation_site : disk :=
  [("base.ifc", mkIfcFile "IFC4" [plain 1 "IfcMaterial" (Some "Concrete")]);
   ("r.ifc", relation_file)].

Definition relation_state : MergeState :=
  default empty_state (import_base flat relation_site "base.ifc").1.

(** A file whose only entity is a styled item. *)
Definition styled_only : disk :=
  [("s.ifc", mkIfcFile "IFC4" [plain 4 "IfcStyledItem" (Some "Paint")])].
End Example.

(** ** The loops *)

Section Loops.
Context {FS : Type} (lib : Library FS).

Lemma add_inv mm c mm' :
  add lib mm c = Ok mm' →
  merged_schema mm' = merged_schema mm ∧ copied mm' = copied mm ++ [c].
Proof.
  unfold add. destruct (add_raises lib mm c); [discriminate|].
  intros [= <-]. done.
Qed.

Lemma dedup_loop_spec {K : Type} {EqK : EqDecision K} {CountK : Countable K}
    (key : Entity → K) p xs mm known :
  ∃ cs,
    dedup_loop lib key p xs mm known
    = (mkMerged (merged_schema mm) (copied mm ++ (mkCopied p <$> cs)),
       known ∪ list_to_set (key <$> cs))
    ∧ dedup_copied key known xs cs (known ∪ list_to_set (key <$> cs)).
Proof.
  revert mm known. induction xs as [|x xs IH]; intros mm known.
  - exists []. simpl. rewrite app_nil_r, union_empty_r_L.
    destruct mm. repeat split; [constructor| |constructor|].
    + intros x Hx. by apply not_elem_of_nil in Hx.
    + cbn. by rewrite union_empty_r_L.
  - simpl. destruct (decide (key x ∈ known)) as [Hin|Hnin].
    + destruct (IH mm known) as (cs & -> & Hs & Hk & Hd & _).
      exists cs. repeat split; [by apply sublist_cons|done..].
    + destruct (add lib mm (mkCopied p x)) as [mm'|msg] eqn:Hadd.
      * apply add_inv in Hadd as [Hsch Hcop].
        destruct (IH mm' (known ∪ {[key x]})) as (cs & -> & Hs & Hk & Hd & _).
        exists (x :: cs). rewrite Hsch, Hcop. simpl.
        rewrite <- app_assoc. simpl. split.
        { f_equal. by rewrite (assoc_L (∪)). }
        repeat split.
        -- by apply sublist_skip.
        -- intros y [->|Hy]%elem_of_cons; [done|].
           intros Hin. apply (Hk y Hy). by apply elem_of_union_l.
        -- constructor; [|done]. intros (y & Hy1 & Hy2)%list_elem_of_fmap.
           apply (Hk y Hy2). rewrite Hy1. by apply elem_of_union_r, elem_of_singleton.
      * destruct (IH mm known) as (cs & -> & Hs & Hk & Hd & _).
        exists cs. repeat split; [by apply sublist_cons|done..].
Qed.

Lemma copy_loop_spec p xs mm :
  ∃ cs,
    copy_loop lib p xs mm
    = mkMerged (merged_schema mm) (copied mm ++ (mkCopied p <$> cs))
    ∧ sublist cs xs.
Proof.
  revert mm. induction xs as [|x xs IH]; intros mm.
  - exists []. simpl. rewrite app_nil_r. destruct mm. split; [done|constructor].
  - simpl. destruct (add lib mm (mkCopied p x)) as [mm'|msg] eqn:Hadd.
    + apply add_inv in Hadd as [Hsch Hcop].
      destruct (IH mm') as (cs & -> & Hs).
      exists (x :: cs). rewrite Hsch, Hcop, <- app_assoc. simpl.
      split; [done|by apply sublist_skip].
    + destruct (IH mm) as (cs & -> & Hs).
      exists cs. split; [done|by apply sublist_cons].
Qed.

Lemma sweep_spec p xs mm :
  ∃ cs,
    (sweep lib p xs mm).1
    = mkMerged (merged_schema mm) (copied mm ++ (mkCopied p <$> cs))
    ∧ sublist cs (filter (λ x, is_a x ∉ handled_types) xs).
Proof.
  revert mm. induction xs as [|x xs IH]; intros mm.
  - exists []. simpl. rewrite app_nil_r. destruct mm. split; [done|constructor].
  - simpl. rewrite filter_cons.
    destruct (decide (is_a x ∈ handled_types)) as [Hin|Hnin].
    + rewrite decide_False by (intros ?; done). apply IH.
    + rewrite decide_True by done.
      destruct (add lib mm (mkCopied p x)) as [mm'|msg] eqn:Hadd.
      * apply add_inv in Hadd as [Hsch Hcop].
        destruct (IH mm') as (cs & -> & Hs).
        exists (x :: cs). rewrite Hsch, Hcop, <- app_assoc. simpl.
        split; [done|by apply sublist_skip].
      * destruct (IH mm) as (cs & Heq & Hs).
        destruct (sweep lib p xs mm) as [mm2 out]. simpl in *.
        exists cs. split; [done|by apply sublist_cons].
Qed.
End Loops.

(** ** One secondary file *)

Section OneFile.
Context {FS : Type} (lib : Library FS).

Local Abbreviation grown st p cs :=
  (mkMerged (merged_schema (merged_model st))
     (copied (merged_model st) ++ (mkCopied p <$> cs))).

Lemma pass_colours_spec p m st :
  ∃ cs,
    pass_colours lib p m st
    = mkMergeState (grown st p cs) (known_materials st) (known_surface_styles st)
        (known_styled_items st) (known_colours st ∪ list_to_set (ifc_id <$> cs))
        (known_presentation_styles st)
    ∧ dedup_copied ifc_id (known_colours st) (by_type lib m "IfcColourRgb") cs
        (known_colours st ∪ list_to_set (ifc_id <$> cs)).
Proof.
  unfold pass_colours.
  destruct (dedup_loop_spec lib ifc_id p (by_type lib m "IfcColourRgb")
              (merged_model st) (known_colours st)) as (cs & -> & Hd).
  by exists cs.
Qed.

Lemma pass_presentation_styles_spec p m st :
  ∃ cs,
    pass_presentation_styles lib p m st
    = mkMergeState (grown st p cs) (known_materials st) (known_surface_styles st)
        (known_styled_items st) (known_colours st)
        (known_presentation_styles st ∪ list_to_set (ifc_id <$> cs))
    ∧ dedup_copied ifc_id (known_presentation_styles st)
        (by_type lib m "IfcPresentationStyleAssignment") cs
        (known_presentation_styles st ∪ list_to_set (ifc_id <$> cs)).
Proof.
  unfold pass_presentation_styles.
  destruct (dedup_loop_spec lib ifc_id p
              (by_type lib m "IfcPresentationStyleAssignment")
              (merged_model st) (known_presentation_styles st)) as (cs & -> & Hd).
  by exists cs.
Qed.

Lemma pass_surface_styles_spec p m st :
  ∃ cs,
    pass_surface_styles lib p m st
    = mkMergeState (grown st p cs) (known_materials st)
        (known_surface_styles st ∪ list_to_set (name_key lib <$> cs))
        (known_styled_items st) (known_colours st) (known_presentation_styles st)
    ∧ dedup_copied (name_key lib) (known_surface_styles st)
        (by_type lib m "IfcSurfaceStyle") cs
        (known_surface_styles st ∪ list_to_set (name_key lib <$> cs)).
Proof.
  unfold pass_surface_styles.
  destruct (dedup_loop_spec lib (name_key lib) p (by_type lib m "IfcSurfaceStyle")
              (merged_model st) (known_surface_styles st)) as (cs & -> & Hd).
  by exists cs.
Qed.

Lemma pass_materials_spec p m st :
  ∃ cs,
    pass_materials lib p m st
    = mkMergeState (grown st p cs)
        (known_materials st ∪ list_to_set (name_key lib <$> cs))
        (known_surface_styles st) (known_styled_items st) (known_colours st)
        (known_presentation_styles st)
    ∧ dedup_copied (name_key lib) (known_materials st)
        (by_type lib m "IfcMaterial") cs
        (known_materials st ∪ list_to_set (name_key lib <$> cs)).
Proof.
  unfold pass_materials.
  destruct (dedup_loop_spec lib (name_key lib) p (by_type lib m "IfcMaterial")
              (merged_model st) (known_materials st)) as (cs & -> & Hd).
  by exists cs.
Qed.

Lemma pass_styled_items_spec p m st :
  ∃ cs,
    pass_styled_items lib p m st
    = mkMergeState (grown st p cs) (known_materials st) (known_surface_styles st)
        (known_styled_items st ∪ list_to_set (ifc_id <$> cs)) (known_colours st)
        (known_presentation_styles st)
    ∧ dedup_copied ifc_id (known_styled_items st) (by_type lib m "IfcStyledItem") cs
        (known_styled_items st ∪ list_to_set (ifc_id <$> cs)).
Proof.
  unfold pass_styled_items.
  destruct (dedup_loop_spec lib ifc_id p (by_type lib m "IfcStyledItem")
              (merged_model st) (known_styled_items st)) as (cs & -> & Hd).
  by exists cs.
Qed.

(** The five deduplicating passes of one file, in order. *)
Lemma dedup_passes_spec p m st :
  let st' := dedup_passes lib p m st in
  ∃ c1 c2 c3 c4 c5,
    added st st' (mkCopied p <$> (c1 ++ c2 ++ c3 ++ c4 ++ c5))
    ∧ dedup_copied ifc_id (known_colours st)
        (by_type lib m "IfcColourRgb") c1 (known_colours st')
    ∧ dedup_copied ifc_id (known_presentation_styles st)
        (by_type lib m "IfcPresentationStyleAssignment") c2
        (known_presentation_styles st')
    ∧ dedup_copied (name_key lib) (known_surface_styles st)
        (by_type lib m "IfcSurfaceStyle") c3 (known_surface_styles st')
    ∧ dedup_copied (name_key lib) (known_materials st)
        (by_type lib m "IfcMaterial") c4 (known_materials st')
    ∧ dedup_copied ifc_id (known_styled_items st)
        (by_type lib m "IfcStyledItem") c5 (known_styled_items st').
Proof.
  unfold dedup_passes.
  destruct (pass_colours_spec p m st) as (c1 & -> & H1).
  destruct (pass_presentation_styles_spec p m
              (mkMergeState (grown st p c1) (known_materials st)
                 (known_surface_styles st) (known_styled_items st)
                 (known_colours st ∪ list_to_set (ifc_id <$> c1))
                 (known_presentation_styles st))) as (c2 & -> & H2).
  cbn [merged_model merged_schema copied known_materials known_surface_styles
       known_styled_items known_colours known_presentation_styles] in *.
  match goal with |- context [pass_surface_styles lib p m ?s] =>
    destruct (pass_surface_styles_spec p m s) as (c3 & -> & H3) end.
  cbn [merged_model merged_schema copied known_materials known_surface_styles
       known_styled_items known_colours known_presentation_styles] in *.
  match goal with |- context [pass_materials lib p m ?s] =>
    destruct (pass_materials_spec p m s) as (c4 & -> & H4) end.
  cbn [merged_model merged_schema copied known_materials known_surface_styles
       known_styled_items known_colours known_presentation_styles] in *.
  match goal with |- context [pass_styled_items lib p m ?s] =>
    destruct (pass_styled_items_spec p m s) as (c5 & -> & H5) end.
  cbn [merged_model merged_schema copied known_materials known_surface_styles
       known_styled_items known_colours known_presentation_styles] in *.
  exists c1, c2, c3, c4, c5. cbn zeta.
  cbn [merged_model merged_schema copied known_materials known_surface_styles
       known_styled_items known_colours known_presentation_styles].
  split; [|done].
  split; [done|]. rewrite !fmap_app, <- !app_assoc. done.
Qed.

(** Passes 6 and 7: the known sets are not read and not written. *)
Lemma copy_passes_spec p m st :
  let st' := copy_passes lib p m st in
  ∃ c6 c7,
    added st st' (mkCopied p <$> (c6 ++ c7))
    ∧ same_known st st'
    ∧ sublist c6 (by_type lib m "IfcRelAssociatesMaterial")
    ∧ sublist c7 (by_type lib m "IfcPresentationLayerAssignment").
Proof.
  unfold copy_passes, pass_layers, pass_material_relations, with_merged.
  cbn [merged_model known_materials known_surface_styles
       known_styled_items known_colours known_presentation_styles].
  destruct (copy_loop_spec lib p (by_type lib m "IfcRelAssociatesMaterial")
              (merged_model st)) as (c6 & -> & H6).
  match goal with |- context [copy_loop lib p ?xs ?mm] =>
    destruct (copy_loop_spec lib p xs mm) as (c7 & -> & H7) end.
  exists c6, c7. cbn. rewrite fmap_app, <- app_assoc.
  repeat split; done.
Qed.

Lemma sweep_pass_spec p m st :
  let st' := with_merged st (sweep lib p (entities m) (merged_model st)).1 in
  ∃ c8,
    added st st' (mkCopied p <$> c8)
    ∧ same_known st st'
    ∧ sublist c8 (filter (λ x, is_a x ∉ handled_types) (entities m)).
Proof.
  destruct (sweep_spec lib p (entities m) (merged_model st)) as (c8 & Heq & H8).
  exists c8. rewrite Heq. repeat split; done.
Qed.

Lemma added_trans st1 st2 st3 l1 l2 :
  added st1 st2 l1 → added st2 st3 l2 → added st1 st3 (l1 ++ l2).
Proof.
  intros [Hs1 Hc1] [Hs2 Hc2]. split; [congruence|].
  rewrite Hc2, Hc1, app_assoc. done.
Qed.

Lemma process_model_fst p m st :
  (process_model lib p m st).1
  = with_merged (copy_passes lib p m (dedup_passes lib p m st))
      (sweep lib p (entities m)
         (merged_model (copy_passes lib p m (dedup_passes lib p m st)))).1.
Proof. unfold process_model. by destruct (sweep _ _ _ _). Qed.

(** Everything the script does with one opened secondary model. *)
Lemma process_model_spec p m st :
  let st' := (process_model lib p m st).1 in
  ∃ c1 c2 c3 c4 c5 c6 c7 c8,
    added st st' (mkCopied p <$> (c1 ++ c2 ++ c3 ++ c4 ++ c5 ++ c6 ++ c7 ++ c8))
    ∧ dedup_copied ifc_id (known_colours st)
        (by_type lib m "IfcColourRgb") c1 (known_colours st')
    ∧ dedup_copied ifc_id (known_presentation_styles st)
        (by_type lib m "IfcPresentationStyleAssignment") c2
        (known_presentation_styles st')
    ∧ dedup_copied (name_key lib) (known_surface_styles st)
        (by_type lib m "IfcSurfaceStyle") c3 (known_surface_styles st')
    ∧ dedup_copied (name_key lib) (known_materials st)
        (by_type lib m "IfcMaterial") c4 (known_materials st')
    ∧ dedup_copied ifc_id (known_styled_items st)
        (by_type lib m "IfcStyledItem") c5 (known_styled_items st')
    ∧ sublist c6 (by_type lib m "IfcRelAssociatesMaterial")
    ∧ sublist c7 (by_type lib m "IfcPresentationLayerAssignment")
    ∧ sublist c8 (filter (λ x, is_a x ∉ handled_types) (entities m)).
Proof.
  cbn zeta. rewrite process_model_fst.
  destruct (dedup_passes_spec p m st) as (c1 & c2 & c3 & c4 & c5 & Ha & H1 & H2 & H3 & H4 & H5).
  set (st5 := dedup_passes lib p m st) in *.
  destruct (copy_passes_spec p m st5) as (c6 & c7 & Hb & Hk & H6 & H7).
  set (st7 := copy_passes lib p m st5) in *.
  destruct (sweep_pass_spec p m st7) as (c8 & Hc & Hk' & H8).
  set (st8 := with_merged st7 _) in *.
  destruct Hk as (K1 & K2 & K3 & K4 & K5), Hk' as (K1' & K2' & K3' & K4' & K5').
  exists c1, c2, c3, c4, c5, c6, c7, c8.
  rewrite <- K1', <- K2', <- K3', <- K4', <- K5', <- K1, <- K2, <- K3, <- K4, <- K5.
  split; [|done].
  pose proof (added_trans _ _ _ _ _ (added_trans _ _ _ _ _ Ha Hb) Hc) as Hadd.
  rewrite <- !fmap_app, <- !app_assoc in Hadd. done.
Qed.

Lemma merge_file_opened fsys p m st :
  path_exists lib fsys p = true → ifc_open lib fsys p = Ok m →
  (merge_file lib fsys p st).1 = (process_model lib p m st).1.
Proof.
  intros He Ho. unfold merge_file. rewrite He, Ho.
  by destruct (process_model lib p m st).
Qed.

Lemma merge_file_skipped fsys p st :
  path_exists lib fsys p = false ∨ (∃ e, ifc_open lib fsys p = Raise e) →
  (merge_file lib fsys p st).1 = st.
Proof.
  unfold merge_file. intros [He|[e Ho]].
  - by rewrite He.
  - rewrite Ho. by destruct (path_exists lib fsys p).
Qed.
End OneFile.


(** ** A whole run of the loop over the secondary files *)

Section Runs.
Context {FS : Type} (lib : Library FS).

Lemma by_type_elem (m : IfcFile) (T : string) (x : Entity) :
  x ∈ by_type lib m T ↔ inherits lib (schema m) (is_a x) T = true ∧ x ∈ entities m.
Proof. unfold by_type. by rewrite list_elem_of_filter. Qed.

Lemma handled_tag_unique (m : IfcFile) (T U : string) (x : Entity) :
  unrelated lib → x ∈ by_type lib m T → is_a x = U →
  T ∈ handled_types → U ∈ handled_types → U = T.
Proof.
  intros Hun [Hin _]%by_type_elem Htag HT HU.
  destruct (decide (U = T)) as [|Hne]; [done|].
  rewrite Htag, (Hun _ U T HU HT Hne) in Hin. discriminate.
Qed.

Lemma known_entity_mono (st st' : MergeState) (x : Entity) :
  known_included st st' → known_entity lib st x → known_entity lib st' x.
Proof.
  intros (H1 & H2 & H3 & H4 & H5). unfold known_entity.
  intros [[? ?]|[[? ?]|[[? ?]|[[? ?]|[? ?]]]]]; set_solver.
Qed.

Lemma known_included_refl (st : MergeState) : known_included st st.
Proof. by repeat split. Qed.

Lemma known_included_trans (st1 st2 st3 : MergeState) :
  known_included st1 st2 → known_included st2 st3 → known_included st1 st3.
Proof.
  intros (A1 & A2 & A3 & A4 & A5) (B1 & B2 & B3 & B4 & B5).
  repeat split; set_solver.
Qed.

Lemma same_known_refl (st : MergeState) : same_known st st.
Proof. by repeat split. Qed.

Lemma same_known_sym (st st' : MergeState) : same_known st st' → same_known st' st.
Proof. intros (A1 & A2 & A3 & A4 & A5). by repeat split. Qed.

Lemma same_known_trans (st1 st2 st3 : MergeState) :
  same_known st1 st2 → same_known st2 st3 → same_known st1 st3.
Proof.
  intros (A1 & A2 & A3 & A4 & A5) (B1 & B2 & B3 & B4 & B5).
  repeat split; congruence.
Qed.

Lemma added_nil (st : MergeState) : added st st [].
Proof. split; [done|]. by rewrite app_nil_r. Qed.

Local Ltac handled := repeat first [apply list_elem_of_here | apply list_elem_of_further].

Local Ltac clash Hun :=
  match goal with
  | Hx : ?x ∈ by_type lib ?m ?T, Ht : is_a ?x = ?U |- _ =>
      let E := fresh in
      assert (U = T) as E
        by (apply (handled_tag_unique m T U x Hun Hx Ht); handled);
      discriminate E
  end.

(** One opened file: what is new in the output model had no known key. *)
Lemma process_model_summary (p : string) (m : IfcFile) (st : MergeState) :
  let st' := (process_model lib p m st).1 in
  ∃ new,
    added st st' new
    ∧ known_included st st'
    ∧ (∀ c, c ∈ new → origin c = p)
    ∧ (unrelated lib → ∀ c, c ∈ new → ¬ known_entity lib st (ent c)).
Proof.
  cbn zeta.
  destruct (process_model_spec lib p m st)
    as (c1 & c2 & c3 & c4 & c5 & c6 & c7 & c8 & Hadd
        & (S1 & N1 & _ & E1) & (S2 & N2 & _ & E2) & (S3 & N3 & _ & E3)
        & (S4 & N4 & _ & E4) & (S5 & N5 & _ & E5) & S6 & S7 & S8).
  eexists. split; [exact Hadd|]. split; [|split].
  - unfold known_included. rewrite E1, E2, E3, E4, E5.
    repeat split; apply union_subseteq_l.
  - intros c (x & -> & _)%list_elem_of_fmap. done.
  - intros Hun c (x & -> & Hx)%list_elem_of_fmap. cbn [ent].
    unfold known_entity.
    rewrite !elem_of_app in Hx.
    destruct Hx as [Hx|[Hx|[Hx|[Hx|[Hx|[Hx|[Hx|Hx]]]]]]].
    + pose proof (N1 x Hx). apply (sublist_subseteq _ _ S1) in Hx.
      intros [[Ht ?]|[[Ht ?]|[[Ht ?]|[[Ht ?]|[Ht ?]]]]]; first [done | clash Hun].
    + pose proof (N2 x Hx). apply (sublist_subseteq _ _ S2) in Hx.
      intros [[Ht ?]|[[Ht ?]|[[Ht ?]|[[Ht ?]|[Ht ?]]]]]; first [done | clash Hun].
    + pose proof (N3 x Hx). apply (sublist_subseteq _ _ S3) in Hx.
      intros [[Ht ?]|[[Ht ?]|[[Ht ?]|[[Ht ?]|[Ht ?]]]]]; first [done | clash Hun].
    + pose proof (N4 x Hx). apply (sublist_subseteq _ _ S4) in Hx.
      intros [[Ht ?]|[[Ht ?]|[[Ht ?]|[[Ht ?]|[Ht ?]]]]]; first [done | clash Hun].
    + pose proof (N5 x Hx). apply (sublist_subseteq _ _ S5) in Hx.
      intros [[Ht ?]|[[Ht ?]|[[Ht ?]|[[Ht ?]|[Ht ?]]]]]; first [done | clash Hun].
    + apply (sublist_subseteq _ _ S6) in Hx.
      intros [[Ht ?]|[[Ht ?]|[[Ht ?]|[[Ht ?]|[Ht ?]]]]]; clash Hun.
    + apply (sublist_subseteq _ _ S7) in Hx.
      intros [[Ht ?]|[[Ht ?]|[[Ht ?]|[[Ht ?]|[Ht ?]]]]]; clash Hun.
    + apply (sublist_subseteq _ _ S8) in Hx.
      apply list_elem_of_filter in Hx as [Hx _].
      intros [[Ht ?]|[[Ht ?]|[[Ht ?]|[[Ht ?]|[Ht ?]]]]];
        apply Hx; rewrite Ht; handled.
Qed.

Lemma merge_file_cases (fsys : FS) (p : string) (st : MergeState) :
  (merge_file lib fsys p st).1 = st
  ∨ ∃ m, path_exists lib fsys p = true ∧ ifc_open lib fsys p = Ok m
         ∧ (merge_file lib fsys p st).1 = (process_model lib p m st).1.
Proof.
  destruct (path_exists lib fsys p) eqn:He.
  - destruct (ifc_open lib fsys p) as [m|e] eqn:Ho.
    + right. exists m. by rewrite (merge_file_opened lib fsys p m st He Ho).
    + left. apply merge_file_skipped. right. by exists e.
  - left. apply merge_file_skipped. by left.
Qed.

Lemma merge_file_summary (fsys : FS) (p : string) (st : MergeState) :
  let st' := (merge_file lib fsys p st).1 in
  ∃ new,
    added st st' new
    ∧ known_included st st'
    ∧ (∀ c, c ∈ new → origin c = p)
    ∧ (unrelated lib → ∀ c, c ∈ new → ¬ known_entity lib st (ent c)).
Proof.
  cbn zeta. destruct (merge_file_cases fsys p st) as [->|(m & _ & _ & ->)].
  - exists []. split; [apply added_nil|]. split; [apply known_included_refl|].
    split; [|intros _]; intros c Hc; by apply not_elem_of_nil in Hc.
  - apply process_model_summary.
Qed.

Lemma merge_rest_cons (fsys : FS) (p : string) (files : list string) (st : MergeState) :
  (merge_rest lib fsys (p :: files) st).1
  = (merge_rest lib fsys files (merge_file lib fsys p st).1).1.
Proof.
  cbn [merge_rest]. destruct (merge_file lib fsys p st) as [st1 out1].
  cbn [fst]. by destruct (merge_rest lib fsys files st1).
Qed.

Lemma merge_rest_app (fsys : FS) (l1 l2 : list string) (st : MergeState) :
  (merge_rest lib fsys (l1 ++ l2) st).1
  = (merge_rest lib fsys l2 (merge_rest lib fsys l1 st).1).1.
Proof.
  revert st. induction l1 as [|p l1 IH]; intros st; [done|].
  rewrite <- app_comm_cons, !merge_rest_cons. apply IH.
Qed.

Lemma merge_rest_summary (fsys : FS) (files : list string) (st : MergeState) :
  let st' := (merge_rest lib fsys files st).1 in
  ∃ new,
    added st st' new
    ∧ known_included st st'
    ∧ (∀ c, c ∈ new → origin c ∈ files)
    ∧ (unrelated lib → ∀ c, c ∈ new → ¬ known_entity lib st (ent c)).
Proof.
  cbn zeta. revert st. induction files as [|p files IH]; intros st.
  - exists []. split; [apply added_nil|]. split; [apply known_included_refl|].
    split; [|intros _]; intros c Hc; by apply not_elem_of_nil in Hc.
  - rewrite merge_rest_cons.
    destruct (merge_file_summary fsys p st) as (n1 & A1 & I1 & O1 & U1).
    destruct (IH (merge_file lib fsys p st).1) as (n2 & A2 & I2 & O2 & U2).
    exists (n1 ++ n2). split; [by eapply added_trans|].
    split; [by eapply known_included_trans|]. split.
    + intros c [Hc|Hc]%elem_of_app.
      * rewrite (O1 c Hc). apply list_elem_of_here.
      * apply list_elem_of_further. by apply O2.
    + intros Hun c [Hc|Hc]%elem_of_app; [by apply U1|].
      intros Hk. apply (U2 Hun c Hc). by eapply known_entity_mono.
Qed.
End Runs.


(** ** The loops, candidate by candidate *)

Section Steps.
Context {FS : Type} (lib : Library FS).

Lemma dedup_loop_steps {K : Type} {EqK : EqDecision K} {CountK : Countable K}
    (key : Entity → K) (p : string) (xs : list Entity) (mm : Merged)
    (known : gset K) :
  pass_over (dedup_step lib key p) xs (mm, known) (dedup_loop lib key p xs mm known).
Proof.
  revert mm known. induction xs as [|x xs IH]; intros mm known; [constructor|].
  cbn [dedup_loop]. destruct (decide (key x ∈ known)) as [Hin|Hnin].
  - econstructor; [by apply dedup_step_known|apply IH].
  - unfold add. destruct (add_raises lib mm (mkCopied p x)) as [e|] eqn:Hr.
    + econstructor; [by eapply dedup_step_failed|apply IH].
    + econstructor; [by apply dedup_step_copied|apply IH].
Qed.

Lemma copy_loop_steps (p : string) (xs : list Entity) (mm : Merged) :
  pass_over (copy_step lib p) xs mm (copy_loop lib p xs mm).
Proof.
  revert mm. induction xs as [|x xs IH]; intros mm; [constructor|].
  cbn [copy_loop]. unfold add.
  destruct (add_raises lib mm (mkCopied p x)) as [e|] eqn:Hr.
  - econstructor; [by eapply copy_step_failed|apply IH].
  - econstructor; [by apply copy_step_copied|apply IH].
Qed.

Lemma sweep_steps (p : string) (xs : list Entity) (mm : Merged) (out : list string) :
  pass_over (sweep_step lib p) xs (mm, out)
    ((sweep lib p xs mm).1, out ++ (sweep lib p xs mm).2).
Proof.
  revert mm out. induction xs as [|x xs IH]; intros mm out.
  - cbn. rewrite app_nil_r. constructor.
  - cbn [sweep]. destruct (decide (is_a x ∈ handled_types)) as [Hin|Hnin].
    + econstructor; [by apply sweep_step_handled|apply IH].
    + unfold add. destruct (add_raises lib mm (mkCopied p x)) as [e|] eqn:Hr.
      * specialize (IH mm (out ++ sweep_warning p x)).
        destruct (sweep lib p xs mm) as [mm2 out2]. cbn [fst snd] in *.
        rewrite <- app_assoc in IH.
        econstructor; [by eapply sweep_step_failed|exact IH].
      * econstructor; [by apply sweep_step_copied|apply IH].
Qed.

(** The steps leave no choice: a pass has one outcome. *)
Lemma dedup_step_functional {K : Type} {EqK : EqDecision K} {CountK : Countable K}
    (key : Entity → K) (p : string) (x : Entity) (s s1 s2 : Merged * gset K) :
  dedup_step lib key p x s s1 → dedup_step lib key p x s s2 → s1 = s2.
Proof. intros H1 H2. destruct H1; inversion H2; subst; congruence. Qed.

Lemma copy_step_functional (p : string) (x : Entity) (s s1 s2 : Merged) :
  copy_step lib p x s s1 → copy_step lib p x s s2 → s1 = s2.
Proof. intros H1 H2. destruct H1; inversion H2; subst; congruence. Qed.

Lemma sweep_step_functional (p : string) (x : Entity)
    (s s1 s2 : Merged * list string) :
  sweep_step lib p x s s1 → sweep_step lib p x s s2 → s1 = s2.
Proof. intros H1 H2. destruct H1; inversion H2; subst; congruence. Qed.

Lemma pass_over_functional {S : Type} (step : Entity → S → S → Prop)
    (xs : list Entity) (s s1 s2 : S) :
  (∀ x a b c, step x a b → step x a c → b = c) →
  pass_over step xs s s1 → pass_over step xs s s2 → s1 = s2.
Proof.
  intros Hf H1. revert s2. induction H1 as [|x xs s s' s'' Hs _ IH]; intros s2 H2.
  - by inversion H2.
  - inversion H2 as [|? ? ? t ? Ht Hrest]; subst.
    assert (t = s') as -> by (by eapply Hf). by apply IH.
Qed.

Local Ltac run_pass :=
  match goal with
  | |- context [dedup_loop lib ?k ?p ?xs ?mm ?kn] =>
      let H := fresh "P" in
      pose proof (dedup_loop_steps k p xs mm kn) as H;
      destruct (dedup_loop lib k p xs mm kn);
      cbn [merged_model known_materials known_surface_styles known_styled_items
           known_colours known_presentation_styles] in *
  end.

Lemma seven_passes_run (p : string) (m : IfcFile) (st : MergeState) :
  seven_passes lib p m st (copy_passes lib p m (dedup_passes lib p m st)).
Proof.
  unfold seven_passes, copy_passes, pass_layers, pass_material_relations,
    with_merged, dedup_passes.
  unfold pass_colours. run_pass.
  unfold pass_presentation_styles. run_pass.
  unfold pass_surface_styles. run_pass.
  unfold pass_materials. run_pass.
  unfold pass_styled_items. run_pass.
  eexists _, _, _, _, _, _.
  repeat split; [eassumption..| |]; apply copy_loop_steps.
Qed.
End Steps.

(** ** The concrete library *)

Lemma flat_unrelated : unrelated Example.flat.
Proof. intros s T U _ _ Hne. cbn. by apply bool_decide_eq_false. Qed.

Lemma flat_never_raises : never_raises Example.flat.
Proof. by intros mm c. Qed.

(** ** The merge policy *)

(** C1.  For a secondary file that exists and opens, the loop body runs
    the seven passes in the order colours, presentation-style
    assignments, surface styles, materials, styled items,
    material-association relations, presentation-layer assignments, each
    over its candidates in their order and from the output model the
    previous pass left, and then the sweep.  In each of the first five a
    candidate is handed to [add] exactly when its key (raw identifier,
    or lower-cased name or "unnamed_<id>") is absent from the matching
    known set at its turn; it is copied, and its key joins the set,
    exactly when that call returns.  In the last two every candidate is
    handed to [add] and copied exactly when the call returns.  Hence
    the entries the passes add, pass after pass, and the growth of the
    known sets by the keys of the copied entities. *)
Theorem seven_passes_in_order {FS : Type} (lib : Library FS) (fsys : FS)
    (p : string) (m : IfcFile) (st : MergeState) :
  path_exists lib fsys p = true →
  ifc_open lib fsys p = Ok m →
  ∃ st7,
    seven_passes lib p m st st7
    ∧ same_known st7 (merge_file lib fsys p st).1
    ∧ pass_over (sweep_step lib p) (entities m) (merged_model st7, [])
        (merged_model (merge_file lib fsys p st).1, (process_model lib p m st).2)
    ∧ merged_in_order lib p m st (merge_file lib fsys p st).1.
Proof.
  intros He Ho. rewrite (merge_file_opened lib fsys p m st He Ho).
  exists (copy_passes lib p m (dedup_passes lib p m st)).
  split; [apply seven_passes_run|].
  split; [|split; [|apply process_model_spec]].
  - destruct (sweep_pass_spec lib p m (copy_passes lib p m (dedup_passes lib p m st)))
      as (c8 & _ & Hk & _).
    by rewrite process_model_fst.
  - pose proof (sweep_steps lib p (entities m)
                  (merged_model (copy_passes lib p m (dedup_passes lib p m st))) [])
      as Hs.
    unfold process_model.
    by destruct (sweep lib p (entities m)
                   (merged_model (copy_passes lib p m (dedup_passes lib p m st)))).
Qed.

Lemma seven_passes_in_order_witness :
  ∃ st7,
    seven_passes Example.flat "b.ifc" Example.second_file Example.base_state st7
    ∧ same_known st7 (merge_file Example.flat Example.site "b.ifc" Example.base_state).1
    ∧ pass_over (sweep_step Example.flat "b.ifc") (entities Example.second_file)
        (merged_model st7, [])
        (merged_model (merge_file Example.flat Example.site "b.ifc" Example.base_state).1,
         (process_model Example.flat "b.ifc" Example.second_file Example.base_state).2)
    ∧ merged_in_order Example.flat "b.ifc" Example.second_file Example.base_state
        (merge_file Example.flat Example.site "b.ifc" Example.base_state).1.
Proof.
  apply (seven_passes_in_order Example.flat Example.site "b.ifc"
           Example.second_file Example.base_state); reflexivity.
Defined.

(** Among the calls of [add] the loop makes, none that returns is on
    an entity whose exact type name is one of the five deduplicated
    types and whose key is in the matching known set, provided the seven
    handled types are pairwise unrelated by inheritance. *)
Lemma known_keys_block_direct_copies {FS : Type} (lib : Library FS) (fsys : FS)
    (files : list string) (st : MergeState) :
  unrelated lib →
  ∃ new,
    added st (merge_rest lib fsys files st).1 new
    ∧ ∀ c, c ∈ new → ¬ known_entity lib st (ent c).
Proof.
  intros Hun.
  destruct (merge_rest_summary lib fsys files st) as (new & Ha & _ & _ & Hu).
  exists new. split; [done|]. by apply Hu.
Qed.

(** C2 fails on the code.  The passes take their candidates with
    [by_type], which includes the subtypes; the sweep skips by exact
    type name.  With a base file holding the styled item #4, the
    IFC2X3 annotation occurrence #4 of "a.ifc" (a styled item) has a
    known key and is skipped by pass 5, then handed to [add] by the
    sweep: it is in the output model, and the script counts it among
    the styled items there. *)
Lemma known_styled_item_is_copied_by_the_sweep :
  let x := Example.plain 4 "IfcAnnotationSurfaceOccurrence" None in
  let final :=
    (merge_rest Example.annotated Example.annotation_site ["a.ifc"]
       Example.annotation_state).1 in
  x ∈ by_type Example.annotated Example.annotation_file "IfcStyledItem"
  ∧ ifc_id x ∈ known_styled_items Example.annotation_state
  ∧ (mkCopied "a.ifc" x
     ∉ copied (merged_model
                 (dedup_passes Example.annotated "a.ifc" Example.annotation_file
                    Example.annotation_state)))
  ∧ mkCopied "a.ifc" x ∈ copied (merged_model final)
  ∧ mkCopied "a.ifc" x
    ∈ copied (output_model Example.annotated Example.annotation_site "base.ifc"
                ["a.ifc"] Example.annotation_state)
  ∧ "Общее количество стилизованных элементов: 3"
    ∈ stdout (main Example.annotated
                ["mergeifc.py"; "out.ifc"; "base.ifc"; "a.ifc"]
                (mkWorld Example.annotation_site [])).2.
Proof.
  cbn zeta. split; [|split; [|split; [|split; [|split]]]];
    apply (bool_decide_unpack _); by vm_compute.
Qed.

(** ** The base file *)

Section Base.
Context {FS : Type} (lib : Library FS).

Lemma add_base_spec (base : string) (xs : list Entity) (mm : Merged) :
  ∃ cs,
    (add_base lib base xs mm).1
    = mkMerged (merged_schema mm) (copied mm ++ (mkCopied base <$> cs))
    ∧ sublist cs xs.
Proof.
  revert mm. induction xs as [|x xs IH]; intros mm.
  - exists []. simpl. rewrite app_nil_r. destruct mm. split; [done|constructor].
  - cbn [add_base]. destruct (add lib mm (mkCopied base x)) as [mm'|e] eqn:Hadd.
    + apply add_inv in Hadd as [Hsch Hcop].
      destruct (IH mm') as (cs & -> & Hs).
      exists (x :: cs). rewrite Hsch, Hcop, <- app_assoc.
      split; [done|by apply sublist_skip].
    + destruct (IH mm) as (cs & Heq & Hs).
      destruct (add_base lib base xs mm) as [mm2 out]. simpl in *.
      exists cs. split; [done|by apply sublist_cons].
Qed.

(** The entities of the base file that satisfy [P] all reach the output
    model when none of their copies raises. *)
Lemma add_base_filter (P : Entity → Prop) `{!∀ x, Decision (P x)}
    (base : string) (xs : list Entity) (mm : Merged) :
  (∀ x, x ∈ xs → P x → ∀ mm', add_raises lib mm' (mkCopied base x) = None) →
  filter (λ c, P (ent c)) (copied (add_base lib base xs mm).1)
  = filter (λ c, P (ent c)) (copied mm) ++ (mkCopied base <$> filter P xs).
Proof.
  revert mm. induction xs as [|x xs IH]; intros mm Hok.
  - simpl. by rewrite app_nil_r.
  - cbn [add_base]. rewrite filter_cons.
    assert (∀ y, y ∈ xs → P y → ∀ mm', add_raises lib mm' (mkCopied base y) = None)
      as Hok' by (intros y Hy; apply Hok; by apply list_elem_of_further).
    unfold add. destruct (add_raises lib mm (mkCopied base x)) as [e|] eqn:Hr.
    + destruct (decide (P x)) as [HP|HP].
      * rewrite (Hok x (list_elem_of_here _ _) HP) in Hr. discriminate.
      * specialize (IH mm Hok').
        destruct (add_base lib base xs mm) as [mm2 out]. exact IH.
    + rewrite (IH _ Hok'). cbn [copied]. rewrite filter_app, filter_cons, filter_nil.
      cbn [ent]. destruct (decide (P x)); rewrite <- app_assoc; [done|].
      by rewrite app_nil_l.
Qed.

Lemma import_base_inv (fsys : FS) (base : string) (st0 : MergeState)
    (out0 : list string) :
  import_base lib fsys base = (Some st0, out0) →
  ∃ bm,
    path_exists lib fsys base = true
    ∧ ifc_open lib fsys base = Ok bm
    ∧ merged_model st0
      = (add_base lib base (entities bm) (mkMerged (schema bm) [])).1
    ∧ known_materials st0 = named_keys lib (by_type lib bm "IfcMaterial")
    ∧ known_surface_styles st0 = named_keys lib (by_type lib bm "IfcSurfaceStyle")
    ∧ known_styled_items st0 = id_keys (by_type lib bm "IfcStyledItem")
    ∧ known_colours st0 = id_keys (by_type lib bm "IfcColourRgb")
    ∧ known_presentation_styles st0
      = id_keys (by_type lib bm "IfcPresentationStyleAssignment").
Proof.
  unfold import_base. destruct (path_exists lib fsys base) eqn:He; [|discriminate].
  destruct (ifc_open lib fsys base) as [bm|e] eqn:Ho; [|discriminate].
  destruct (add_base lib base (entities bm) (mkMerged (schema bm) []))
    as [mm out] eqn:Hab.
  intros [= <- <-]. exists bm. rewrite Hab. by repeat split.
Qed.

Lemma import_base_failed (fsys : FS) (base : string) :
  path_exists lib fsys base = false ∨ (∃ e, ifc_open lib fsys base = Raise e) →
  (import_base lib fsys base).1 = None.
Proof.
  unfold import_base. intros [He|[e Ho]].
  - by rewrite He.
  - rewrite Ho. by destruct (path_exists lib fsys base).
Qed.

Lemma named_keys_elem (xs : list Entity) (x : Entity) (n : string) :
  x ∈ xs → truthy (Name x) = Some n → lower lib n ∈ named_keys lib xs.
Proof.
  intros Hx Hn. unfold named_keys. apply elem_of_list_to_set.
  apply list_elem_of_omap. exists x. split; [done|]. by rewrite Hn.
Qed.
End Base.

Lemma filter_none {A : Type} (P : A → Prop) `{!∀ x, Decision (P x)} (l : list A) :
  (∀ x, x ∈ l → ¬ P x) → filter P l = [].
Proof.
  intros Hno. destruct (filter P l) as [|y r] eqn:Hf; [done|].
  assert (y ∈ filter P l) as [Hy Hin]%list_elem_of_filter
    by (rewrite Hf; apply list_elem_of_here).
  by destruct (Hno y Hin).
Qed.

(** X17.  What the script itself hands to [add], when the base file
    defines a material with a non-empty name: among the calls that
    returned, those on a material (exact type name) filed under the
    lower-cased name are exactly those of the base import, each on an
    entity of the base file; no such call is made for a secondary file,
    whatever the case of the name there; and there is exactly one, on
    the base file's material, when the base file defines a single
    material under that key and the copy of it does not fail.  (What
    the library transplants along with other entities is not a call of
    the script.) *)
Theorem base_material_key_blocks_direct_copies {FS : Type} (lib : Library FS) (fsys : FS)
    (base : string) (bm : IfcFile) (files : list string) (st0 : MergeState)
    (out0 : list string) (b : Entity) (n : string) :
  unrelated lib →
  ifc_open lib fsys base = Ok bm →
  import_base lib fsys base = (Some st0, out0) →
  b ∈ by_type lib bm "IfcMaterial" →
  truthy (Name b) = Some n →
  let final := copied (merged_model (merge_rest lib fsys files st0).1) in
  let under_k := λ c, material_under lib (lower lib n) (ent c) in
  filter under_k final = filter under_k (copied (merged_model st0))
  ∧ (∀ c, c ∈ filter under_k final → origin c = base ∧ ent c ∈ entities bm)
  ∧ (filter (material_under lib (lower lib n)) (entities bm) = [b] →
     (∀ mm, add_raises lib mm (mkCopied base b) = None) →
     filter under_k final = [mkCopied base b]).
Proof.
  intros Hun Ho Hib Hb Hn final under_k.
  destruct (import_base_inv lib fsys base st0 out0 Hib)
    as (bm' & _ & Ho' & Hmm & Hkm & _).
  assert (bm' = bm) as -> by congruence.
  assert (lower lib n ∈ known_materials st0) as Hk
    by (rewrite Hkm; by eapply named_keys_elem).
  destruct (merge_rest_summary lib fsys files st0) as (new & [_ Ha] & _ & _ & Hu).
  assert (filter under_k final = filter under_k (copied (merged_model st0))) as Heq.
  { unfold final. rewrite Ha, filter_app, (filter_none under_k new).
    - by rewrite app_nil_r.
    - intros c Hc [Htag Hkey]. apply (Hu Hun c Hc).
      right; right; right; left. split; [done|]. by rewrite Hkey. }
  split; [exact Heq|]. rewrite Heq, Hmm. split.
  - intros c [_ Hc]%list_elem_of_filter.
    destruct (add_base_spec lib base (entities bm) (mkMerged (schema bm) []))
      as (cs & Hcs & Hsub).
    rewrite Hcs in Hc. cbn in Hc.
    apply list_elem_of_fmap in Hc as (x & -> & Hx). split; [done|].
    by apply (sublist_subseteq _ _ Hsub).
  - intros Hone Hok.
    rewrite (add_base_filter lib (material_under lib (lower lib n))).
    + by rewrite Hone.
    + intros x Hx HP mm'.
      assert (x ∈ filter (material_under lib (lower lib n)) (entities bm)) as Hxf
        by (by apply list_elem_of_filter).
      rewrite Hone in Hxf. apply list_elem_of_singleton in Hxf as ->. apply Hok.
Qed.

Lemma base_material_key_blocks_direct_copies_witness :
  let final :=
    copied (merged_model
              (merge_rest Example.flat Example.site ["b.ifc"; "c.ifc"]
                 Example.base_state).1) in
  let under_k := λ c, material_under Example.flat "concrete" (ent c) in
  filter under_k final = filter under_k (copied (merged_model Example.base_state))
  ∧ (∀ c, c ∈ filter under_k final →
          origin c = "base.ifc" ∧ ent c ∈ entities Example.base_file)
  ∧ (filter (material_under Example.flat "concrete") (entities Example.base_file)
     = [Example.plain 1 "IfcMaterial" (Some "Concrete")] →
     (∀ mm, add_raises Example.flat mm
              (mkCopied "base.ifc" (Example.plain 1 "IfcMaterial" (Some "Concrete")))
            = None) →
     filter under_k final
     = [mkCopied "base.ifc" (Example.plain 1 "IfcMaterial" (Some "Concrete"))]).
Proof.
  apply (base_material_key_blocks_direct_copies Example.flat Example.site "base.ifc" Example.base_file
           ["b.ifc"; "c.ifc"] Example.base_state
           (import_base Example.flat Example.site "base.ifc").2
           (Example.plain 1 "IfcMaterial" (Some "Concrete")) "Concrete").
  - exact flat_unrelated.
  - reflexivity.
  - reflexivity.
  - apply by_type_elem. split; [reflexivity|]. apply list_elem_of_here.
  - reflexivity.
Defined.

(** C3 fails on the code.  The base file defines the material
    "Concrete"; the secondary file defines "CONCRETE" and a relation
    that associates it with a wall.  Pass 4 skips the secondary
    material, whose key is known; pass 6 hands the relation to [add],
    which transplants the entities the relation refers to: the output
    model holds two materials under the key "concrete", one of them
    from the secondary file, and the totals the script prints say so. *)
Lemma secondary_material_arrives_with_its_relation :
  let concrete := Example.plain 1 "IfcMaterial" (Some "Concrete") in
  let CONCRETE := Example.plain 1 "IfcMaterial" (Some "CONCRETE") in
  let under_k := λ c, material_under Example.flat "concrete" (ent c) in
  let final :=
    (merge_rest Example.flat Example.relation_site ["r.ifc"]
       Example.relation_state).1 in
  let out :=
    output_model Example.flat Example.relation_site "base.ifc" ["r.ifc"]
      Example.relation_state in
  filter under_k (copied (merged_model final)) = [mkCopied "base.ifc" concrete]
  ∧ filter under_k (copied out)
    = [mkCopied "base.ifc" concrete; mkCopied "r.ifc" CONCRETE]
  ∧ "Общее количество материалов: 2"
    ∈ stdout (main Example.flat ["mergeifc.py"; "out.ifc"; "base.ifc"; "r.ifc"]
                (mkWorld Example.relation_site [])).2.
Proof.
  cbn zeta. split; [by vm_compute|]. split; [by vm_compute|].
  apply (bool_decide_unpack _). by vm_compute.
Qed.

(** ** Placeholder keys of unnamed entities *)

(** Two unnamed entities get the same placeholder key exactly when their
    identifiers are equal: the file they come from plays no part. *)
Lemma unnamed_keys_agree_iff {FS : Type} (lib : Library FS) (x y : Entity) :
  truthy (Name x) = None → truthy (Name y) = None →
  name_key lib x = name_key lib y ↔ ifc_id x = ifc_id y.
Proof.
  intros Hx Hy. unfold name_key. rewrite Hx, Hy. split.
  - intros H. apply (inj (String.app _)) in H. by apply (inj pretty) in H.
  - by intros ->.
Qed.

(** C4 fails on the code.  The files "b.ifc" and "c.ifc" each hold an
    unnamed material with identifier 5; both get the key "unnamed_5", so
    the one of "b.ifc" is copied and the one of "c.ifc" is skipped as
    its duplicate. *)
Lemma unnamed_materials_collide_across_files :
  let x := Example.plain 5 "IfcMaterial" None in
  let final :=
    copied (merged_model
              (merge_rest Example.flat Example.site ["b.ifc"; "c.ifc"]
                 Example.base_state).1) in
  x ∈ by_type Example.flat Example.second_file "IfcMaterial"
  ∧ x ∈ by_type Example.flat Example.third_file "IfcMaterial"
  ∧ name_key Example.flat x = "unnamed_5"
  ∧ mkCopied "b.ifc" x ∈ final
  ∧ mkCopied "c.ifc" x ∉ final.
Proof.
  cbn zeta. repeat split.
  - apply (bool_decide_unpack _). by vm_compute.
  - apply (bool_decide_unpack _). by vm_compute.
  - apply (bool_decide_unpack _). by vm_compute.
  - apply (bool_decide_unpack _). by vm_compute.
Qed.

(** ** Repeating a secondary file *)

Section Repeat.
Context {FS : Type} (lib : Library FS).

(** When no copy fails, a deduplicating loop learns the key of every
    candidate, whatever the output model holds. *)
Lemma dedup_loop_learns {K : Type} {EqK : EqDecision K} {CountK : Countable K}
    (key : Entity → K) (p : string)
    (xs : list Entity) (mm : Merged) (known : gset K) :
  never_raises lib →
  (dedup_loop lib key p xs mm known).2 = known ∪ list_to_set (key <$> xs).
Proof.
  intros Hnr. revert mm known. induction xs as [|x xs IH]; intros mm known.
  - simpl. by rewrite union_empty_r_L.
  - cbn [dedup_loop]. destruct (decide (key x ∈ known)) as [Hin|Hnin].
    + rewrite IH. cbn [fmap list_fmap list_to_set]. rewrite (assoc_L (∪)).
      f_equal. symmetry. rewrite (comm_L (∪)).
      by apply subseteq_union_1_L, singleton_subseteq_l.
    + unfold add. rewrite (Hnr mm (mkCopied p x)). rewrite IH.
      cbn [fmap list_fmap list_to_set]. by rewrite (assoc_L (∪)).
Qed.

(** A deduplicating loop over candidates whose keys are all known does
    nothing. *)
Lemma dedup_loop_idle {K : Type} {EqK : EqDecision K} {CountK : Countable K}
    (key : Entity → K) (p : string)
    (xs : list Entity) (mm : Merged) (known : gset K) :
  (∀ x, x ∈ xs → key x ∈ known) →
  dedup_loop lib key p xs mm known = (mm, known).
Proof.
  induction xs as [|x xs IH]; intros Hall; [done|].
  cbn [dedup_loop]. rewrite decide_True by (apply Hall, list_elem_of_here).
  apply IH. intros y Hy. by apply Hall, list_elem_of_further.
Qed.

Lemma dedup_passes_learn (p : string) (m : IfcFile) (st : MergeState) :
  never_raises lib →
  let st' := dedup_passes lib p m st in
  known_colours st'
  = known_colours st ∪ list_to_set (ifc_id <$> by_type lib m "IfcColourRgb")
  ∧ known_presentation_styles st'
    = known_presentation_styles st
      ∪ list_to_set (ifc_id <$> by_type lib m "IfcPresentationStyleAssignment")
  ∧ known_surface_styles st'
    = known_surface_styles st
      ∪ list_to_set (name_key lib <$> by_type lib m "IfcSurfaceStyle")
  ∧ known_materials st'
    = known_materials st
      ∪ list_to_set (name_key lib <$> by_type lib m "IfcMaterial")
  ∧ known_styled_items st'
    = known_styled_items st
      ∪ list_to_set (ifc_id <$> by_type lib m "IfcStyledItem").
Proof.
  intros Hnr. cbn zeta.
  unfold dedup_passes, pass_styled_items, pass_materials, pass_surface_styles,
    pass_presentation_styles, pass_colours.
  repeat match goal with
  | |- context [dedup_loop lib ?k p ?xs ?mm ?kn] =>
      let E := fresh "E" in
      pose proof (dedup_loop_learns k p xs mm kn Hnr) as E;
      destruct (dedup_loop lib k p xs mm kn); cbn [snd] in E; subst
  end.
  cbn. done.
Qed.

Lemma dedup_passes_idle (p : string) (m : IfcFile) (st : MergeState) :
  absorbed lib m st → dedup_passes lib p m st = st.
Proof.
  intros (A1 & A2 & A3 & A4 & A5).
  unfold dedup_passes, pass_colours.
  rewrite (dedup_loop_idle ifc_id p _ _ _ A1).
  unfold pass_presentation_styles. cbn.
  rewrite (dedup_loop_idle ifc_id p _ _ _ A2).
  unfold pass_surface_styles. cbn.
  rewrite (dedup_loop_idle (name_key lib) p _ _ _ A3).
  unfold pass_materials. cbn.
  rewrite (dedup_loop_idle (name_key lib) p _ _ _ A4).
  unfold pass_styled_items. cbn.
  rewrite (dedup_loop_idle ifc_id p _ _ _ A5).
  by destruct st.
Qed.

Lemma process_model_same_known (p : string) (m : IfcFile) (st : MergeState) :
  same_known (dedup_passes lib p m st) (process_model lib p m st).1.
Proof.
  rewrite process_model_fst.
  destruct (copy_passes_spec lib p m (dedup_passes lib p m st)) as (? & ? & _ & Hk & _).
  eapply same_known_trans; [exact Hk|].
  by repeat split.
Qed.

(** When no copy fails, one processing of [m] leaves its keys known. *)
Lemma process_model_absorbs (p : string) (m : IfcFile) (st : MergeState) :
  never_raises lib → absorbed lib m (process_model lib p m st).1.
Proof.
  intros Hnr.
  destruct (process_model_same_known p m st) as (K1 & K2 & K3 & K4 & K5).
  destruct (dedup_passes_learn p m st Hnr) as (L1 & L2 & L3 & L4 & L5).
  unfold absorbed. rewrite <- K1, <- K2, <- K3, <- K4, <- K5, L1, L2, L3, L4, L5.
  repeat split; intros x Hx; apply elem_of_union_r, elem_of_list_to_set,
    list_elem_of_fmap; by exists x.
Qed.

Lemma absorbed_mono (m : IfcFile) (st st' : MergeState) :
  known_included st st' → absorbed lib m st → absorbed lib m st'.
Proof.
  intros (I1 & I2 & I3 & I4 & I5) (A1 & A2 & A3 & A4 & A5).
  repeat split; intros x Hx; set_solver.
Qed.

(** When no copy fails, the known sets after a file depend on the known
    sets before it only, not on the output model. *)
Lemma merge_file_same_known (fsys : FS) (p : string) (st st' : MergeState) :
  never_raises lib → same_known st st' →
  same_known (merge_file lib fsys p st).1 (merge_file lib fsys p st').1.
Proof.
  intros Hnr Hs.
  destruct (path_exists lib fsys p) eqn:He.
  - destruct (ifc_open lib fsys p) as [m|e] eqn:Ho.
    + rewrite !(merge_file_opened lib fsys p m _ He Ho).
      eapply same_known_trans; [apply same_known_sym, process_model_same_known|].
      eapply same_known_trans; [|apply process_model_same_known].
      destruct Hs as (S1 & S2 & S3 & S4 & S5).
      destruct (dedup_passes_learn p m st Hnr) as (L1 & L2 & L3 & L4 & L5).
      destruct (dedup_passes_learn p m st' Hnr) as (M1 & M2 & M3 & M4 & M5).
      unfold same_known. rewrite L1, L2, L3, L4, L5, M1, M2, M3, M4, M5.
      rewrite S1, S2, S3, S4, S5. done.
    + rewrite !merge_file_skipped by (right; by exists e). done.
  - rewrite !merge_file_skipped by (by left). done.
Qed.

Lemma merge_rest_same_known (fsys : FS) (files : list string) (st st' : MergeState) :
  never_raises lib → same_known st st' →
  same_known (merge_rest lib fsys files st).1 (merge_rest lib fsys files st').1.
Proof.
  intros Hnr. revert st st'. induction files as [|p files IH]; intros st st' Hs.
  - done.
  - rewrite !merge_rest_cons. apply IH. by apply merge_file_same_known.
Qed.

(** Processing again a file whose keys are all known changes no known
    set. *)
Lemma merge_file_absorbed (fsys : FS) (p : string) (m : IfcFile) (st : MergeState) :
  ifc_open lib fsys p = Ok m → absorbed lib m st →
  same_known st (merge_file lib fsys p st).1.
Proof.
  intros Ho Hab.
  destruct (merge_file_cases lib fsys p st) as [->|(m' & _ & Ho' & ->)].
  - apply same_known_refl.
  - assert (m' = m) as -> by congruence.
    eapply same_known_trans; [|apply process_model_same_known].
    rewrite (dedup_passes_idle p m st Hab). apply same_known_refl.
Qed.
End Repeat.

Lemma absorbed_after_first {FS : Type} (lib : Library FS) (fsys : FS)
    (l1 l2 : list string) (p : string) (m : IfcFile) (st : MergeState) :
  never_raises lib →
  path_exists lib fsys p = true → ifc_open lib fsys p = Ok m →
  absorbed lib m (merge_rest lib fsys (l1 ++ p :: l2) st).1.
Proof.
  intros Hnr He Ho. rewrite merge_rest_app, merge_rest_cons.
  destruct (merge_rest_summary lib fsys l2
              (merge_file lib fsys p (merge_rest lib fsys l1 st).1).1)
    as (_ & _ & Hinc & _).
  eapply absorbed_mono; [exact Hinc|].
  rewrite (merge_file_opened lib fsys p m _ He Ho).
  by apply process_model_absorbs.
Qed.

(** X3.  Assume no copy fails.  A secondary file listed a second time
    leaves the five known sets as they were: the run with the second
    occurrence and the run without it end with the same known sets; the
    second processing changes no known set; and its five deduplicating
    passes hand nothing to [add]. *)
Theorem repeated_file_adds_no_key {FS : Type} (lib : Library FS) (fsys : FS)
    (l1 l2 l3 : list string) (p : string) (st : MergeState) :
  never_raises lib →
  let before := (merge_rest lib fsys (l1 ++ p :: l2) st).1 in
  same_known (merge_rest lib fsys (l1 ++ p :: l2 ++ l3) st).1
    (merge_rest lib fsys (l1 ++ p :: l2 ++ p :: l3) st).1
  ∧ same_known before (merge_file lib fsys p before).1
  ∧ (∀ m, path_exists lib fsys p = true → ifc_open lib fsys p = Ok m →
          dedup_passes lib p m before = before).
Proof.
  intros Hnr before.
  assert (same_known before (merge_file lib fsys p before).1) as Hsame.
  { destruct (merge_file_cases lib fsys p before) as [->|(m & He & Ho & _)].
    - apply same_known_refl.
    - apply (merge_file_absorbed lib fsys p m before Ho).
      by apply absorbed_after_first. }
  split; [|split; [exact Hsame|]].
  - change (l1 ++ p :: l2 ++ l3) with (l1 ++ (p :: l2) ++ l3).
    change (l1 ++ p :: l2 ++ p :: l3) with (l1 ++ (p :: l2) ++ p :: l3).
    rewrite !app_assoc, !(merge_rest_app lib fsys (l1 ++ p :: l2)), merge_rest_cons.
    by apply merge_rest_same_known.
  - intros m He Ho. apply dedup_passes_idle. by apply absorbed_after_first.
Qed.

Lemma repeated_file_adds_no_key_witness :
  let before :=
    (merge_rest Example.flat Example.site ([] ++ "b.ifc" :: ["c.ifc"])
       Example.base_state).1 in
  same_known
    (merge_rest Example.flat Example.site ([] ++ "b.ifc" :: ["c.ifc"] ++ [])
       Example.base_state).1
    (merge_rest Example.flat Example.site ([] ++ "b.ifc" :: ["c.ifc"] ++ "b.ifc" :: [])
       Example.base_state).1
  ∧ same_known before (merge_file Example.flat Example.site "b.ifc" before).1
  ∧ (∀ m, path_exists Example.flat Example.site "b.ifc" = true →
          ifc_open Example.flat Example.site "b.ifc" = Ok m →
          dedup_passes Example.flat "b.ifc" m before = before).
Proof.
  apply (repeated_file_adds_no_key Example.flat Example.site [] ["c.ifc"] []
           "b.ifc" Example.base_state).
  exact flat_never_raises.
Defined.

(** C5 fails on the code, by the defect shown for C2.  No copy fails.
    The annotation occurrences #4 and #30 of "a.ifc" are styled items,
    candidates of pass 5.  Listing "a.ifc" a second time leaves the
    known sets as they were, yet the second processing hands both to
    [add] again, through the sweep, and the output model, which gets
    new instances from the second opening, holds them once more. *)
Lemma second_processing_copies_styled_items_again :
  let x4 := Example.plain 4 "IfcAnnotationSurfaceOccurrence" None in
  let x30 := Example.plain 30 "IfcAnnotationSurfaceOccurrence" None in
  let once :=
    (merge_rest Example.annotated Example.annotation_site ["a.ifc"]
       Example.annotation_state).1 in
  let twice :=
    (merge_rest Example.annotated Example.annotation_site ["a.ifc"; "a.ifc"]
       Example.annotation_state).1 in
  never_raises Example.annotated
  ∧ by_type Example.annotated Example.annotation_file "IfcStyledItem" = [x4; x30]
  ∧ same_known once twice
  ∧ direct_calls once twice = [mkCopied "a.ifc" x4; mkCopied "a.ifc" x30]
  ∧ file_content Example.annotated Example.annotation_site "a.ifc" once
    = [mkCopied "a.ifc" x4; mkCopied "a.ifc" x30].
Proof.
  cbn zeta. split; [by intros mm c|]. split; [by vm_compute|]. split.
  - unfold same_known. repeat split; apply (bool_decide_unpack _); by vm_compute.
  - split; by vm_compute.
Qed.

(** ** The unconditional passes *)

Section Unconditional.
Context {FS : Type} (lib : Library FS).

Lemma occurrences_app (c : Copied) (l1 l2 : list Copied) :
  occurrences c (l1 ++ l2) = (occurrences c l1 + occurrences c l2)%nat.
Proof. unfold occurrences. by rewrite filter_app, length_app. Qed.

Lemma occurrences_added (c : Copied) (st st' : MergeState) (new : list Copied) :
  added st st' new →
  (occurrences c (copied (merged_model st))
   ≤ occurrences c (copied (merged_model st')))%nat.
Proof. intros [_ ->]. rewrite occurrences_app. lia. Qed.

Lemma copy_loop_grows (c : Copied) (p : string) (xs : list Entity) (mm : Merged) :
  (occurrences c (copied mm) ≤ occurrences c (copied (copy_loop lib p xs mm)))%nat.
Proof.
  destruct (copy_loop_spec lib p xs mm) as (cs & -> & _). cbn [copied].
  rewrite occurrences_app. lia.
Qed.

(** The unconditional loop copies every candidate whose [add] does not
    raise: one more occurrence in the output model. *)
Lemma copy_loop_copies (p : string) (xs : list Entity) (x : Entity) (mm : Merged) :
  x ∈ xs →
  (∀ mm', add_raises lib mm' (mkCopied p x) = None) →
  (S (occurrences (mkCopied p x) (copied mm))
   ≤ occurrences (mkCopied p x) (copied (copy_loop lib p xs mm)))%nat.
Proof.
  intros Hx Hok. revert mm. induction xs as [|y xs IH]; intros mm.
  - by apply not_elem_of_nil in Hx.
  - cbn [copy_loop]. destruct (decide (x = y)) as [<-|Hne].
    + unfold add. rewrite Hok.
      etrans; [|apply copy_loop_grows]. cbn [copied].
      rewrite occurrences_app. unfold occurrences at 3.
      rewrite filter_cons, decide_True by done. simpl. lia.
    + apply elem_of_cons in Hx as [?|Hx]; [done|].
      destruct (add lib mm (mkCopied p y)) as [mm'|e] eqn:Hadd.
      * apply add_inv in Hadd as [_ Hc].
        etrans; [|apply (IH Hx)]. rewrite Hc, occurrences_app. lia.
      * by apply IH.
Qed.

Lemma process_model_copies (p : string) (m : IfcFile) (x : Entity) (st : MergeState) :
  x ∈ by_type lib m "IfcRelAssociatesMaterial"
  ∨ x ∈ by_type lib m "IfcPresentationLayerAssignment" →
  (∀ mm, add_raises lib mm (mkCopied p x) = None) →
  (S (occurrences (mkCopied p x) (copied (merged_model st)))
   ≤ occurrences (mkCopied p x)
       (copied (merged_model (process_model lib p m st).1)))%nat.
Proof.
  intros Hx Hok. rewrite process_model_fst.
  destruct (dedup_passes_spec lib p m st) as (? & ? & ? & ? & ? & Ha & _).
  pose proof (occurrences_added (mkCopied p x) _ _ _ Ha) as H5.
  set (st5 := dedup_passes lib p m st) in *.
  destruct (sweep_pass_spec lib p m (copy_passes lib p m st5)) as (? & Hc & _).
  pose proof (occurrences_added (mkCopied p x) _ _ _ Hc) as H8.
  etrans; [|exact H8].
  unfold copy_passes, pass_layers, pass_material_relations, with_merged.
  cbn [merged_model].
  destruct Hx as [Hx|Hx].
  - etrans; [|apply copy_loop_grows].
    etrans; [|apply (copy_loop_copies p _ x _ Hx Hok)]. lia.
  - etrans; [|apply (copy_loop_copies p _ x _ Hx Hok)].
    etrans; [|apply le_n_S, copy_loop_grows]. lia.
Qed.

Lemma merge_rest_grows (c : Copied) (fsys : FS) (files : list string)
    (st : MergeState) :
  (occurrences c (copied (merged_model st))
   ≤ occurrences c (copied (merged_model (merge_rest lib fsys files st).1)))%nat.
Proof.
  destruct (merge_rest_summary lib fsys files st) as (new & Ha & _).
  by eapply occurrences_added.
Qed.
End Unconditional.

(** C6.  Every material-association relation and every
    presentation-layer assignment of a secondary file is handed to [add]
    each time the file is processed, whatever the known sets hold: if
    its copy does not fail, each processing adds one more occurrence of
    it to the output model, so a file listed twice leaves it there at
    least twice. *)
Theorem relations_and_layers_copied_every_time {FS : Type} (lib : Library FS)
    (fsys : FS) (p : string) (m : IfcFile) (x : Entity) :
  path_exists lib fsys p = true →
  ifc_open lib fsys p = Ok m →
  x ∈ by_type lib m "IfcRelAssociatesMaterial"
  ∨ x ∈ by_type lib m "IfcPresentationLayerAssignment" →
  (∀ mm, add_raises lib mm (mkCopied p x) = None) →
  (∀ st,
     (1 + occurrences (mkCopied p x) (copied (merged_model st))
      ≤ occurrences (mkCopied p x)
          (copied (merged_model (merge_file lib fsys p st).1)))%nat)
  ∧ (∀ st l1 l2 l3,
       (2 + occurrences (mkCopied p x) (copied (merged_model st))
        ≤ occurrences (mkCopied p x)
            (copied (merged_model
                       (merge_rest lib fsys (l1 ++ p :: l2 ++ p :: l3) st).1)))%nat).
Proof.
  intros He Ho Hx Hok.
  assert (∀ st,
    (1 + occurrences (mkCopied p x) (copied (merged_model st))
     ≤ occurrences (mkCopied p x)
         (copied (merged_model (merge_file lib fsys p st).1)))%nat) as Hone.
  { intros st. rewrite (merge_file_opened lib fsys p m st He Ho).
    by apply process_model_copies. }
  split; [exact Hone|].
  intros st l1 l2 l3.
  rewrite merge_rest_app, merge_rest_cons, merge_rest_app, merge_rest_cons.
  etrans; [|apply merge_rest_grows].
  etrans; [|apply Hone].
  etrans; [|apply le_n_S, merge_rest_grows].
  etrans; [|apply le_n_S, Hone].
  simpl. apply le_n_S, le_n_S, merge_rest_grows.
Qed.

Lemma relations_and_layers_copied_every_time_witness :
  let c := mkCopied "b.ifc" (Example.plain 9 "IfcRelAssociatesMaterial" None) in
  (∀ st,
     (1 + occurrences c (copied (merged_model st))
      ≤ occurrences c
          (copied (merged_model (merge_file Example.flat Example.site "b.ifc" st).1)))%nat)
  ∧ (∀ st l1 l2 l3,
       (2 + occurrences c (copied (merged_model st))
        ≤ occurrences c
            (copied (merged_model
                       (merge_rest Example.flat Example.site
                          (l1 ++ "b.ifc" :: l2 ++ "b.ifc" :: l3) st).1)))%nat).
Proof.
  apply (relations_and_layers_copied_every_time Example.flat Example.site "b.ifc"
           Example.second_file (Example.plain 9 "IfcRelAssociatesMaterial" None)).
  - reflexivity.
  - reflexivity.
  - left. apply by_type_elem. split; [reflexivity|].
    do 4 apply list_elem_of_further. apply list_elem_of_here.
  - reflexivity.
Defined.


(** ** The command line *)

Section CommandLine.
Context {FS : Type} (lib : Library FS).

Lemma validate_fs (f : string) (w : World FS) :
  fs (validate_ifc_colors lib f w) = fs w.
Proof.
  unfold validate_ifc_colors. cbn [fs prints].
  destruct (ifc_open lib (fs w) f) as [model|e]; [|done].
  by destruct (report lib model) as [out [e|]].
Qed.

Lemma merge_aborts (base : string) (rest : list string) (out : string) (w : World FS) :
  (import_base lib (fs w) base).1 = None →
  merge_ifc_files_with_color_priority lib (base :: rest) out w
  = (Exited 1, prints w (import_base lib (fs w) base).2).
Proof.
  intros Hn. unfold merge_ifc_files_with_color_priority.
  destruct (import_base lib (fs w) base) as [[st|] o]; [discriminate|done].
Qed.

Lemma merge_returns (base : string) (rest : list string) (out : string)
    (w : World FS) (st0 : MergeState) (out0 : list string) :
  import_base lib (fs w) base = (Some st0, out0) →
  (merge_ifc_files_with_color_priority lib (base :: rest) out w).1 = Returned
  ∧ fs (merge_ifc_files_with_color_priority lib (base :: rest) out w).2
    = (ifc_write lib (fs w) out (merged_model (merge_rest lib (fs w) rest st0).1)).1.
Proof.
  intros Hi. unfold merge_ifc_files_with_color_priority. rewrite Hi.
  destruct (merge_rest lib (fs w) rest st0) as [st' out']. cbn [fst snd].
  unfold write_merged. cbn [fs prints].
  by destruct (ifc_write lib (fs w) out (merged_model st')) as [fs' [e|]].
Qed.

Lemma import_base_opens (fsys : FS) (base : string) (bm : IfcFile) :
  path_exists lib fsys base = true → ifc_open lib fsys base = Ok bm →
  ∃ st0 out0, import_base lib fsys base = (Some st0, out0).
Proof.
  intros He Ho. unfold import_base. rewrite He, Ho.
  destruct (add_base lib base (entities bm) (mkMerged (schema bm) [])).
  by eexists _, _.
Qed.

(** The merge command line: what [main] reduces to. *)
Lemma main_merge (prog out base : string) (rest : list string) (w : World FS) :
  out ≠ "--analyze" →
  main lib (prog :: out :: base :: rest) w
  = let w1 :=
      validate_ifc_colors lib base
        (prints (prints w (banner ++ [repeat_string 80 "="]))
           ["=== Analysis of source file ==="]) in
    match merge_ifc_files_with_color_priority lib (base :: rest) out w1 with
    | (Exited code, w2) => (code, w2)
    | (Returned, w2) =>
        (0, validate_ifc_colors lib out
              (prints w2 [nl +:+ "=== Analysis of result ==="]))
    end.
Proof.
  intros Hne. unfold main.
  rewrite decide_False by (intros [_ [= ?]]; done).
  rewrite decide_False by (cbn; lia).
  reflexivity.
Qed.

Lemma main_merge_returns (prog out base : string) (rest : list string)
    (w : World FS) (st0 : MergeState) (out0 : list string) :
  out ≠ "--analyze" →
  import_base lib (fs w) base = (Some st0, out0) →
  (main lib (prog :: out :: base :: rest) w).1 = 0
  ∧ fs (main lib (prog :: out :: base :: rest) w).2
    = (ifc_write lib (fs w) out (merged_model (merge_rest lib (fs w) rest st0).1)).1.
Proof.
  intros Hne Hi. rewrite (main_merge prog out base rest w Hne). cbn zeta.
  set (w1 := validate_ifc_colors lib base _).
  assert (fs w1 = fs w) as Hfs by (unfold w1; by rewrite validate_fs).
  rewrite <- Hfs in Hi.
  destruct (merge_returns base rest out w1 st0 out0 Hi) as [Hr Hw].
  destruct (merge_ifc_files_with_color_priority lib (base :: rest) out w1)
    as [c w2]. cbn [fst snd] in *. subst c. cbn [fst snd].
  split; [done|]. by rewrite validate_fs, <- Hfs.
Qed.

Lemma merge_rest_skips (fsys : FS) (l1 l2 : list string) (p : string)
    (st : MergeState) :
  path_exists lib fsys p = false ∨ (∃ e, ifc_open lib fsys p = Raise e) →
  (merge_rest lib fsys (l1 ++ p :: l2) st).1
  = (merge_rest lib fsys (l1 ++ l2) st).1.
Proof.
  intros Hbad. rewrite !merge_rest_app, merge_rest_cons.
  by rewrite (merge_file_skipped lib fsys p _ Hbad).
Qed.
End CommandLine.

(** C7.  On the merge command line, when the base path does not exist
    or the base file does not open, the process exits with status 1 and
    has written nothing: the file system is the one it started from. *)
Theorem missing_base_aborts {FS : Type} (lib : Library FS)
    (prog out base : string) (rest : list string) (w : World FS) :
  out ≠ "--analyze" →
  path_exists lib (fs w) base = false ∨ (∃ e, ifc_open lib (fs w) base = Raise e) →
  (main lib (prog :: out :: base :: rest) w).1 = 1
  ∧ fs (main lib (prog :: out :: base :: rest) w).2 = fs w.
Proof.
  intros Hne Hbad. rewrite (main_merge lib prog out base rest w Hne). cbn zeta.
  set (w1 := validate_ifc_colors lib base _).
  assert (fs w1 = fs w) as Hfs by (unfold w1; by rewrite validate_fs).
  rewrite merge_aborts by (rewrite Hfs; by apply import_base_failed).
  done.
Qed.

Lemma missing_base_aborts_witness :
  (main Example.flat ["mergeifc.py"; "out.ifc"; "nowhere.ifc"; "b.ifc"]
     (mkWorld Example.site [])).1 = 1
  ∧ fs (main Example.flat ["mergeifc.py"; "out.ifc"; "nowhere.ifc"; "b.ifc"]
          (mkWorld Example.site [])).2
    = fs (mkWorld Example.site []).
Proof.
  apply (missing_base_aborts Example.flat "mergeifc.py" "out.ifc" "nowhere.ifc"
           ["b.ifc"] (mkWorld Example.site [])).
  - discriminate.
  - left. reflexivity.
Defined.

(** C8.  When the base file opens and a secondary path does not exist
    or does not open, the loop leaves the merge state as it was at that
    file: the run ends in the state of the run without it, the process
    exits with status 0, and what it leaves on disk is what the run
    without that file leaves. *)
Theorem missing_secondary_is_skipped {FS : Type} (lib : Library FS)
    (prog out base p : string) (l1 l2 : list string) (bm : IfcFile) (w : World FS) :
  out ≠ "--analyze" →
  path_exists lib (fs w) base = true →
  ifc_open lib (fs w) base = Ok bm →
  path_exists lib (fs w) p = false ∨ (∃ e, ifc_open lib (fs w) p = Raise e) →
  (∀ st, (merge_file lib (fs w) p st).1 = st)
  ∧ (∀ st, (merge_rest lib (fs w) (l1 ++ p :: l2) st).1
           = (merge_rest lib (fs w) (l1 ++ l2) st).1)
  ∧ (main lib (prog :: out :: base :: l1 ++ p :: l2) w).1 = 0
  ∧ fs (main lib (prog :: out :: base :: l1 ++ p :: l2) w).2
    = fs (main lib (prog :: out :: base :: l1 ++ l2) w).2.
Proof.
  intros Hne He Ho Hbad.
  split; [intros st; by apply merge_file_skipped|].
  split; [intros st; by apply merge_rest_skips|].
  destruct (import_base_opens lib (fs w) base bm He Ho) as (st0 & out0 & Hi).
  destruct (main_merge_returns lib prog out base (l1 ++ p :: l2) w st0 out0 Hne Hi)
    as [-> ->].
  destruct (main_merge_returns lib prog out base (l1 ++ l2) w st0 out0 Hne Hi)
    as [_ ->].
  split; [done|]. by rewrite merge_rest_skips.
Qed.

Lemma missing_secondary_is_skipped_witness :
  let w := mkWorld Example.site [] in
  (∀ st, (merge_file Example.flat (fs w) "nowhere.ifc" st).1 = st)
  ∧ (∀ st, (merge_rest Example.flat (fs w) (["b.ifc"] ++ "nowhere.ifc" :: ["c.ifc"]) st).1
           = (merge_rest Example.flat (fs w) (["b.ifc"] ++ ["c.ifc"]) st).1)
  ∧ (main Example.flat
       ("mergeifc.py" :: "out.ifc" :: "base.ifc"
          :: ["b.ifc"] ++ "nowhere.ifc" :: ["c.ifc"]) w).1 = 0
  ∧ fs (main Example.flat
          ("mergeifc.py" :: "out.ifc" :: "base.ifc"
             :: ["b.ifc"] ++ "nowhere.ifc" :: ["c.ifc"]) w).2
    = fs (main Example.flat
            ("mergeifc.py" :: "out.ifc" :: "base.ifc" :: ["b.ifc"] ++ ["c.ifc"]) w).2.
Proof.
  apply (missing_secondary_is_skipped Example.flat "mergeifc.py" "out.ifc"
           "base.ifc" "nowhere.ifc" ["b.ifc"] ["c.ifc"] Example.base_file
           (mkWorld Example.site [])).
  - discriminate.
  - reflexivity.
  - reflexivity.
  - left. reflexivity.
Defined.

(** C10.  Called with an empty list of input files, the merge function
    prints one error line and returns: it does not exit, and the file
    system is untouched. *)
Theorem empty_input_returns {FS : Type} (lib : Library FS) (out : string)
    (w : World FS) :
  merge_ifc_files_with_color_priority lib [] out w
  = (Returned,
     mkWorld (fs w)
       (stdout w ++ ["Ошибка: Не указаны входные файлы для объединения."])).
Proof. reflexivity. Qed.

(** ** The analyzer *)

Lemma digit_char_is_digit (d : Z) : (0 ≤ d ≤ 9)%Z → is_digit (digit_char d).
Proof.
  intros Hd. unfold is_digit, digit_char.
  rewrite Ascii.nat_ascii_embedding by lia. lia.
Qed.

Lemma digits3_spec (k : Z) :
  (0 ≤ k < 1000)%Z →
  String.length (digits3 k) = 3%nat
  ∧ Forall is_digit (String.list_ascii_of_string (digits3 k)).
Proof.
  intros Hk. split; [done|]. unfold digits3. cbn [String.list_ascii_of_string].
  assert (0 ≤ k / 100 ≤ 9)%Z as H1.
  { split; [apply Z.div_pos; lia|]. apply Z.lt_succ_r, Z.div_lt_upper_bound; lia. }
  assert (0 ≤ k / 10 mod 10 ≤ 9)%Z as H2
    by (pose proof (Z.mod_pos_bound (k / 10) 10); lia).
  assert (0 ≤ k mod 10 ≤ 9)%Z as H3
    by (pose proof (Z.mod_pos_bound k 10); lia).
  apply Forall_cons. split; [by apply digit_char_is_digit|].
  apply Forall_cons. split; [by apply digit_char_is_digit|].
  apply Forall_cons. split; [by apply digit_char_is_digit|].
  apply Forall_nil_2.
Qed.

Lemma format_3f_three_decimals (x : Q) : three_decimals (format_3f x).
Proof.
  unfold three_decimals, format_3f.
  set (m := round_half_even _ _).
  destruct (digits3_spec (m mod 1000)) as [Hl Hd].
  { apply Z.mod_pos_bound. lia. }
  eexists _, _, _. split; [reflexivity|].
  split; [|done]. destruct (Qnum x <? 0)%Z; auto.
Qed.

Lemma rgb_line_spec (colour : Entity) (line : string) :
  rgb_line colour = Ok line → rgb_sample_line line.
Proof.
  unfold rgb_line.
  destruct (Red colour) as [r|], (Green colour) as [g|], (Blue colour) as [b|];
    try discriminate.
  intros [= <-]. exists (format_3f r), (format_3f g), (format_3f b).
  split; [done|]. repeat split; apply format_3f_three_decimals.
Qed.

Lemma rgb_lines_spec (colours : list Entity) :
  Forall rgb_sample_line (rgb_lines colours).1
  ∧ match (rgb_lines colours).2 with
    | None => length (rgb_lines colours).1 = length colours
    | Some _ => (length (rgb_lines colours).1 < length colours)%nat
    end.
Proof.
  induction colours as [|c cs [IH1 IH2]]; [by split|].
  cbn [rgb_lines]. destruct (rgb_line c) as [line|e] eqn:Hl.
  - destruct (rgb_lines cs) as [out [e|]]; cbn in *.
    + split; [constructor; [by eapply rgb_line_spec|done]|lia].
    + split; [constructor; [by eapply rgb_line_spec|done]|lia].
  - cbn. split; [constructor|lia].
Qed.

Lemma rgb_line_ok (c : Entity) (line : string) :
  rgb_line c = Ok line → colour_sample c line.
Proof.
  unfold rgb_line, colour_sample.
  destruct (Red c) as [r|], (Green c) as [g|], (Blue c) as [b|];
    try discriminate.
  intros [= <-]. by exists r, g, b.
Qed.

Lemma rgb_line_raise (c : Entity) (e : string) :
  rgb_line c = Raise e →
  ¬ has_rgb c ∧ e = "unsupported format string passed to NoneType.__format__".
Proof.
  unfold rgb_line, has_rgb.
  destruct (Red c) as [r|], (Green c) as [g|], (Blue c) as [b|];
    try discriminate; intros [= <-]; (split; [|done]);
    intros (Hr & Hg & Hb);
    first [by apply is_Some_None in Hr | by apply is_Some_None in Hg
          | by apply is_Some_None in Hb].
Qed.

Lemma rgb_lines_shows (colours : list Entity) :
  ∃ shown,
    Forall2 colour_sample shown (rgb_lines colours).1
    ∧ match (rgb_lines colours).2 with
      | None => shown = colours
      | Some e =>
          e = "unsupported format string passed to NoneType.__format__"
          ∧ ∃ c rest, colours = shown ++ c :: rest ∧ ¬ has_rgb c
      end.
Proof.
  induction colours as [|c cs (shown & IH1 & IH2)].
  - exists []. by split; [constructor|].
  - cbn [rgb_lines]. destruct (rgb_line c) as [line|e] eqn:Hl.
    + apply rgb_line_ok in Hl.
      destruct (rgb_lines cs) as [out [e|]]; cbn [fst snd] in *.
      * destruct IH2 as (-> & c' & rest & -> & Hc').
        exists (c :: shown). split; [by constructor|].
        split; [done|]. by exists c', rest.
      * subst shown. exists (c :: cs). by split; [constructor|].
    + apply rgb_line_raise in Hl as [Hc ->]. cbn [fst snd].
      exists []. split; [constructor|]. split; [done|]. by exists c, cs.
Qed.

Lemma report_shows {FS : Type} (lib : Library FS) (model : IfcFile) :
  analysis_shows lib model
    ((report lib model).1
     ++ match (report lib model).2 with
        | Some e => ["Ошибка при анализе файла: " +:+ e]
        | None => []
        end).
Proof.
  unfold analysis_shows, report.
  destruct (rgb_lines_shows (take 3 (by_type lib model "IfcColourRgb")))
    as (shown & Hs & Hn).
  destruct (rgb_lines_spec (take 3 (by_type lib model "IfcColourRgb"))) as [Hf _].
  destruct (rgb_lines (take 3 (by_type lib model "IfcColourRgb"))) as [out [e|]];
    cbn [fst snd] in *.
  - destruct Hn as (-> & c & rest & Hc & Hn).
    exists shown, out, ["Ошибка при анализе файла: "
                     +:+ "unsupported format string passed to NoneType.__format__"].
    split; [by rewrite <- !app_assoc|]. split; [done|]. split; [done|].
    right. by exists c, rest.
  - exists shown, out,
      ["Связи материалов: "
         +:+ pretty (length (by_type lib model "IfcRelAssociatesMaterial"))].
    split; [by rewrite app_nil_r, <- !app_assoc|]. split; [done|].
    split; [done|]. by left.
Qed.

Lemma main_analyze {FS : Type} (lib : Library FS) (prog f : string)
    (rest : list string) (w : World FS) :
  main lib (prog :: "--analyze" :: f :: rest) w = (0, validate_ifc_colors lib f w).
Proof.
  unfold main. rewrite decide_True by (split; [cbn; lia|done]). reflexivity.
Qed.

(** C9, amended.  The analyze command exits with status 0 and writes
    nothing, whatever fails.  After its header it prints, for a file
    that opens: the count and the first 5 names of the materials, the
    count and the first 5 names of the surface styles, the count alone
    of the styled items, the count of the colours and, for each of the
    first 3 of them in turn, its red, green and blue components, each
    with three digits after the point, and then the count of the
    material relations; at the first of these colours with a null
    component the samples stop and the formatting error is logged
    instead of that last count.  For a file that does not open, it
    prints the logged error alone. *)
Theorem analyzer_reports {FS : Type} (lib : Library FS) (prog f : string)
    (rest : list string) (w : World FS) :
  let r := main lib (prog :: "--analyze" :: f :: rest) w in
  r.1 = 0
  ∧ fs r.2 = fs w
  ∧ ∃ body,
      stdout r.2
      = stdout w ++ (nl +:+ "=== Анализ цветовой информации в " +:+ f +:+ " ===") :: body
      ∧ match ifc_open lib (fs w) f with
        | Ok model => analysis_shows lib model body
        | Raise e => body = ["Ошибка при анализе файла: " +:+ e]
        end.
Proof.
  cbn zeta. rewrite main_analyze. cbn [fst snd].
  split; [done|]. split; [apply validate_fs|].
  unfold validate_ifc_colors. cbn [fs prints stdout].
  destruct (ifc_open lib (fs w) f) as [model|e].
  - pose proof (report_shows lib model) as Hr.
    destruct (report lib model) as [out [e|]]; cbn [fst snd stdout prints] in *.
    + eexists. split; [|exact Hr]. by rewrite <- app_assoc.
    + eexists. split; [|exact Hr]. by rewrite <- app_assoc, app_nil_r.
  - eexists. split; [|reflexivity]. cbn [stdout prints]. by rewrite <- app_assoc.
Qed.

(** C9 as stated fails: for a file holding one styled item (and nothing
    else) the analyzer prints the count of styled items and no sample of
    them. *)
Lemma analyzer_prints_no_styled_item_sample :
  (∃ model,
     ifc_open Example.flat Example.styled_only "s.ifc" = Ok model
     ∧ by_type Example.flat model "IfcStyledItem"
       = [Example.plain 4 "IfcStyledItem" (Some "Paint")])
  ∧ stdout (main Example.flat ["mergeifc.py"; "--analyze"; "s.ifc"]
              (mkWorld Example.styled_only [])).2
    = [nl +:+ "=== Анализ цветовой информации в s.ifc ===";
       "Материалы: 0";
       "Стили поверхности: 0";
       "Стилизованные элементы: 1";
       "RGB цвета: 0";
       "Связи материалов: 0"].
Proof. split; [eexists; split; reflexivity|]. vm_compute. reflexivity. Qed.


(** * Further properties of the script *)

(** ** The base importer *)

Section BaseImporter.
Context {FS : Type} (lib : Library FS).



End BaseImporter.





(** ** The loop over the secondary files *)





Section Provenance.
Context {FS : Type} (lib : Library FS).

Lemma by_type_entities (m : IfcFile) (T : string) (x : Entity) :
  x ∈ by_type lib m T → x ∈ entities m.
Proof. by intros [_ ?]%by_type_elem. Qed.

(** Every entry one file adds was read from that file. *)
Lemma merge_file_reads (fsys : FS) (p : string) (st : MergeState) :
  ∃ new,
    added st (merge_file lib fsys p st).1 new
    ∧ ∀ c, c ∈ new → origin c = p ∧ read_from lib fsys c.
Proof.
  destruct (merge_file_cases lib fsys p st) as [->|(m & He & Ho & ->)].
  - exists []. split; [apply added_nil|]. intros c Hc. by apply not_elem_of_nil in Hc.
  - destruct (process_model_spec lib p m st)
      as (c1 & c2 & c3 & c4 & c5 & c6 & c7 & c8 & Hadd
          & (S1 & _) & (S2 & _) & (S3 & _) & (S4 & _) & (S5 & _) & S6 & S7 & S8).
    eexists. split; [exact Hadd|].
    intros c (x & -> & Hx)%list_elem_of_fmap. split; [done|].
    split; [done|]. exists m. split; [done|]. cbn [ent].
    rewrite !elem_of_app in Hx.
    destruct Hx as [Hx|[Hx|[Hx|[Hx|[Hx|[Hx|[Hx|Hx]]]]]]].
    + eapply by_type_entities, (sublist_subseteq _ _ S1), Hx.
    + eapply by_type_entities, (sublist_subseteq _ _ S2), Hx.
    + eapply by_type_entities, (sublist_subseteq _ _ S3), Hx.
    + eapply by_type_entities, (sublist_subseteq _ _ S4), Hx.
    + eapply by_type_entities, (sublist_subseteq _ _ S5), Hx.
    + eapply by_type_entities, (sublist_subseteq _ _ S6), Hx.
    + eapply by_type_entities, (sublist_subseteq _ _ S7), Hx.
    + apply (sublist_subseteq _ _ S8) in Hx.
      by apply list_elem_of_filter in Hx as [_ Hx].
Qed.

(** A key one file records is the key of a candidate it copied. *)
Lemma merge_file_keys (fsys : FS) (p : string) (st : MergeState) :
  let st' := (merge_file lib fsys p st).1 in
  ∃ new,
    added st st' new
    ∧ (∀ k, k ∈ known_colours st' →
            k ∈ known_colours st
            ∨ ∃ c, c ∈ new ∧ candidate_of lib fsys "IfcColourRgb" c
                   ∧ ifc_id (ent c) = k)
    ∧ (∀ k, k ∈ known_presentation_styles st' →
            k ∈ known_presentation_styles st
            ∨ ∃ c, c ∈ new
                   ∧ candidate_of lib fsys "IfcPresentationStyleAssignment" c
                   ∧ ifc_id (ent c) = k)
    ∧ (∀ k, k ∈ known_surface_styles st' →
            k ∈ known_surface_styles st
            ∨ ∃ c, c ∈ new ∧ candidate_of lib fsys "IfcSurfaceStyle" c
                   ∧ name_key lib (ent c) = k)
    ∧ (∀ k, k ∈ known_materials st' →
            k ∈ known_materials st
            ∨ ∃ c, c ∈ new ∧ candidate_of lib fsys "IfcMaterial" c
                   ∧ name_key lib (ent c) = k)
    ∧ (∀ k, k ∈ known_styled_items st' →
            k ∈ known_styled_items st
            ∨ ∃ c, c ∈ new ∧ candidate_of lib fsys "IfcStyledItem" c
                   ∧ ifc_id (ent c) = k).
Proof.
  cbn zeta. destruct (merge_file_cases lib fsys p st) as [->|(m & He & Ho & ->)].
  - exists []. split; [apply added_nil|]. repeat split; intros k Hk; by left.
  - destruct (process_model_spec lib p m st)
      as (c1 & c2 & c3 & c4 & c5 & c6 & c7 & c8 & Hadd
          & (S1 & _ & _ & E1) & (S2 & _ & _ & E2) & (S3 & _ & _ & E3)
          & (S4 & _ & _ & E4) & (S5 & _ & _ & E5) & _).
    eexists. split; [exact Hadd|].
    assert (∀ {K : Type} {EqK : EqDecision K} {CountK : Countable K}
              (key : Entity → K) (T : string) (ci : list Entity)
              (known : gset K) (k : K),
              sublist ci (by_type lib m T) →
              ci ⊆ c1 ++ c2 ++ c3 ++ c4 ++ c5 ++ c6 ++ c7 ++ c8 →
              k ∈ known ∪ list_to_set (key <$> ci) →
              k ∈ known
              ∨ ∃ c, c ∈ mkCopied p <$>
                           (c1 ++ c2 ++ c3 ++ c4 ++ c5 ++ c6 ++ c7 ++ c8)
                     ∧ candidate_of lib fsys T c ∧ key (ent c) = k) as Hgen.
    { intros K EqK CountK key T ci known k Hs Hsub [Hk|Hk]%elem_of_union;
        [by left|right].
      apply elem_of_list_to_set, list_elem_of_fmap in Hk as (x & -> & Hx).
      exists (mkCopied p x). split; [|split; [|done]].
      - apply list_elem_of_fmap. exists x. split; [done|]. by apply Hsub.
      - exists m. split; [done|]. by apply (sublist_subseteq _ _ Hs). }
    rewrite E1, E2, E3, E4, E5.
    repeat split; intros k Hk; (eapply Hgen; [eassumption| |exact Hk]);
      intros x Hx; rewrite !elem_of_app; tauto.
Qed.
End Provenance.


Section ProvenanceRuns.
Context {FS : Type} (lib : Library FS).

Lemma recorded_from_trans {K : Type} {EqK : EqDecision K} {CountK : Countable K}
    (fsys : FS) (key : Entity → K) (T : string) (k0 k1 k2 : gset K)
    (n1 n2 : list Copied) :
  recorded_from lib fsys key T k0 k1 n1 →
  recorded_from lib fsys key T k1 k2 n2 →
  recorded_from lib fsys key T k0 k2 (n1 ++ n2).
Proof.
  intros H1 H2 k Hk. destruct (H2 k Hk) as [Hk1|(c & Hc & Hcand & Hkey)].
  - destruct (H1 k Hk1) as [?|(c & Hc & Hcand & Hkey)]; [by left|right].
    exists c. split; [by apply elem_of_app; left|done].
  - right. exists c. split; [by apply elem_of_app; right|done].
Qed.

Lemma recorded_from_nil {K : Type} {EqK : EqDecision K} {CountK : Countable K}
    (fsys : FS) (key : Entity → K) (T : string) (k0 : gset K) :
  recorded_from lib fsys key T k0 k0 [].
Proof. intros k Hk. by left. Qed.
End ProvenanceRuns.

(** X6.  A key enters a known set only with a copy: after any run of
    the loop, every key of a known set was known before the run or is
    the key of an entity the run added to the output model, taken from
    the candidates of the matching pass in the file it was read from.
    A candidate whose copy failed records nothing. *)
Theorem keys_come_from_copies {FS : Type} (lib : Library FS) (fsys : FS)
    (files : list string) (st : MergeState) :
  let st' := (merge_rest lib fsys files st).1 in
  ∃ new,
    added st st' new
    ∧ recorded_from lib fsys ifc_id "IfcColourRgb"
        (known_colours st) (known_colours st') new
    ∧ recorded_from lib fsys ifc_id "IfcPresentationStyleAssignment"
        (known_presentation_styles st) (known_presentation_styles st') new
    ∧ recorded_from lib fsys (name_key lib) "IfcSurfaceStyle"
        (known_surface_styles st) (known_surface_styles st') new
    ∧ recorded_from lib fsys (name_key lib) "IfcMaterial"
        (known_materials st) (known_materials st') new
    ∧ recorded_from lib fsys ifc_id "IfcStyledItem"
        (known_styled_items st) (known_styled_items st') new.
Proof.
  cbn zeta. revert st. induction files as [|p files IH]; intros st.
  - exists []. split; [apply added_nil|]. repeat split; apply recorded_from_nil.
  - rewrite merge_rest_cons.
    destruct (merge_file_keys lib fsys p st) as (n1 & A1 & C1 & P1 & S1 & M1 & I1).
    destruct (IH (merge_file lib fsys p st).1)
      as (n2 & A2 & C2 & P2 & S2 & M2 & I2).
    exists (n1 ++ n2). split; [by eapply added_trans|].
    repeat split; eapply recorded_from_trans; eassumption.
Qed.

(** X7.  The output model is filled in the order of the input list: what
    the loop adds splits into one block per listed file, in list order,
    and every entry of a file's block is an entity of that file, which
    exists and opens.  The loop adds nothing of its own making. *)
Theorem output_follows_input_order {FS : Type} (lib : Library FS) (fsys : FS)
    (files : list string) (st : MergeState) :
  ∃ parts,
    added st (merge_rest lib fsys files st).1 (concat parts)
    ∧ Forall2 (λ p part, ∀ c, c ∈ part → origin c = p ∧ read_from lib fsys c)
        files parts.
Proof.
  revert st. induction files as [|p files IH]; intros st.
  - exists []. split; [apply added_nil|constructor].
  - rewrite merge_rest_cons.
    destruct (merge_file_reads lib fsys p st) as (n1 & A1 & R1).
    destruct (IH (merge_file lib fsys p st).1) as (parts & A2 & R2).
    exists (n1 :: parts). split; [by eapply added_trans|].
    by constructor.
Qed.

(** X8.  The loop only adds: whatever the files, the output model it
    ends with extends the one it started from, keeps its schema, and no
    known set has lost a key. *)
Theorem loop_only_grows {FS : Type} (lib : Library FS) (fsys : FS)
    (files : list string) (st : MergeState) :
  let st' := (merge_rest lib fsys files st).1 in
  copied (merged_model st) `prefix_of` copied (merged_model st')
  ∧ merged_schema (merged_model st') = merged_schema (merged_model st)
  ∧ known_included st st'.
Proof.
  cbn zeta.
  destruct (merge_rest_summary lib fsys files st) as (new & [Hs Hc] & Hi & _).
  split; [|done]. rewrite Hc. by apply prefix_app_r.
Qed.

(** ** The final sweep *)

Section Sweep.
Context {FS : Type} (lib : Library FS).

Lemma sweep_warning_length (p : string) (x : Entity) :
  (length (sweep_warning p x) ≤ 1)%nat
  ∧ (reportable x → length (sweep_warning p x) = 1%nat).
Proof.
  unfold sweep_warning, reportable.
  destruct (truthy (Name x)) as [n|]; [by split|].
  destruct (GlobalId x) as [g|]; [by split|].
  split; [simpl; lia|]. by intros [[? [=]]|[? [=]]].
Qed.

Lemma sweep_warning_silent (p : string) (x : Entity) :
  ¬ reportable x → sweep_warning p x = [].
Proof.
  unfold sweep_warning, reportable. intros Hn.
  destruct (truthy (Name x)) as [n|]; [by destruct Hn; left|].
  destruct (GlobalId x) as [g|]; [by destruct Hn; right|done].
Qed.

Lemma sweep_count (p : string) (xs : list Entity) (mm : Merged) :
  ∃ cs,
    copied (sweep lib p xs mm).1 = copied mm ++ (mkCopied p <$> cs)
    ∧ sublist cs (filter (λ x, is_a x ∉ handled_types) xs)
    ∧ (length cs + length (sweep lib p xs mm).2
       ≤ length (filter (λ x, is_a x ∉ handled_types) xs))%nat
    ∧ ((∀ x, x ∈ xs → is_a x ∉ handled_types → reportable x) →
       (length cs + length (sweep lib p xs mm).2
        = length (filter (λ x, is_a x ∉ handled_types) xs))%nat).
Proof.
  revert mm. induction xs as [|x xs IH]; intros mm.
  - exists []. simpl. rewrite app_nil_r. repeat split; [constructor|lia].
  - cbn [sweep]. rewrite filter_cons.
    destruct (decide (is_a x ∈ handled_types)) as [Hin|Hnin].
    + rewrite decide_False by (intros ?; done).
      destruct (IH mm) as (cs & Hc & Hs & Hle & Heq).
      exists cs. repeat split; [done..|].
      intros Hrep. apply Heq. intros y Hy. by apply Hrep, list_elem_of_further.
    + rewrite decide_True by done.
      destruct (add lib mm (mkCopied p x)) as [mm'|e] eqn:Hadd.
      * apply add_inv in Hadd as [_ Hcop].
        destruct (IH mm') as (cs & Hc & Hs & Hle & Heq).
        exists (x :: cs). rewrite Hc, Hcop, <- app_assoc.
        split; [done|]. split; [by apply sublist_skip|]. cbn [length].
        split; [lia|]. intros Hrep. rewrite <- Heq; [lia|].
        intros y Hy. by apply Hrep, list_elem_of_further.
      * destruct (IH mm) as (cs & Hc & Hs & Hle & Heq).
        destruct (sweep lib p xs mm) as [mm2 out]. cbn [fst snd] in *.
        destruct (sweep_warning_length p x) as [Hw1 Hw2].
        exists cs. split; [done|]. split; [by apply sublist_cons|].
        rewrite length_app. cbn [length]. split; [lia|].
        intros Hrep. rewrite Hw2 by (apply Hrep; [apply list_elem_of_here|done]).
        rewrite <- Heq; [lia|].
        intros y Hy. by apply Hrep, list_elem_of_further.
Qed.

(** X9.  The final sweep takes the entities of the file one after the
    other, in the file's order, and what it returns is the one outcome
    of these steps: an entity whose exact type name is one of the seven
    handled types is passed over; for any other, [add] is called, and
    the entity is in the log when the call returns, while a call that
    raises prints the warning, which is one line for an entity with a
    non-empty name or a [GlobalId] attribute and nothing for an entity
    with neither.  So the copies and the warnings together never exceed
    the entities of the other types, and account for each of them when
    every such entity can be named. *)
Theorem sweep_copies_or_warns (p : string) (xs : list Entity) (mm : Merged) :
  pass_over (sweep_step lib p) xs (mm, []) (sweep lib p xs mm)
  ∧ (∀ s, pass_over (sweep_step lib p) xs (mm, []) s → s = sweep lib p xs mm)
  ∧ (∀ x, (reportable x → length (sweep_warning p x) = 1%nat)
          ∧ (¬ reportable x → sweep_warning p x = []))
  ∧ ∃ cs,
      copied (sweep lib p xs mm).1 = copied mm ++ (mkCopied p <$> cs)
      ∧ sublist cs (filter (λ x, is_a x ∉ handled_types) xs)
      ∧ (length cs + length (sweep lib p xs mm).2
         ≤ length (filter (λ x, is_a x ∉ handled_types) xs))%nat
      ∧ ((∀ x, x ∈ xs → is_a x ∉ handled_types → reportable x) →
         (length cs + length (sweep lib p xs mm).2
          = length (filter (λ x, is_a x ∉ handled_types) xs))%nat).
Proof.
  assert (pass_over (sweep_step lib p) xs (mm, []) (sweep lib p xs mm)) as Hrun.
  { pose proof (sweep_steps lib p xs mm []) as Hs.
    rewrite app_nil_l in Hs. by destruct (sweep lib p xs mm). }
  split; [exact Hrun|]. split.
  { intros s Hs.
    exact (pass_over_functional (sweep_step lib p) xs _ _ _
             (sweep_step_functional lib p) Hs Hrun). }
  split; [|apply sweep_count].
  intros x. split; [apply sweep_warning_length|apply sweep_warning_silent].
Qed.

Lemma sweep_all (p : string) (xs : list Entity) (mm : Merged) :
  never_raises lib →
  sweep lib p xs mm
  = (mkMerged (merged_schema mm)
       (copied mm ++ (mkCopied p <$> filter (λ x, is_a x ∉ handled_types) xs)),
     []).
Proof.
  intros Hnr. revert mm. induction xs as [|x xs IH]; intros mm.
  - simpl. rewrite app_nil_r. by destruct mm.
  - cbn [sweep]. rewrite filter_cons.
    destruct (decide (is_a x ∈ handled_types)) as [Hin|Hnin].
    + rewrite decide_False by (intros ?; done). apply IH.
    + rewrite decide_True by done. unfold add.
      rewrite (Hnr mm (mkCopied p x)), IH. cbn [merged_schema copied fmap list_fmap].
      by rewrite <- app_assoc.
Qed.

Lemma sweep_grows (c : Copied) (p : string) (xs : list Entity) (mm : Merged) :
  (occurrences c (copied mm) ≤ occurrences c (copied (sweep lib p xs mm).1))%nat.
Proof.
  destruct (sweep_spec lib p xs mm) as (cs & -> & _). cbn [copied].
  rewrite occurrences_app. lia.
Qed.

Lemma sweep_copies (p : string) (xs : list Entity) (x : Entity) (mm : Merged) :
  x ∈ xs → is_a x ∉ handled_types →
  (∀ mm', add_raises lib mm' (mkCopied p x) = None) →
  (S (occurrences (mkCopied p x) (copied mm))
   ≤ occurrences (mkCopied p x) (copied (sweep lib p xs mm).1))%nat.
Proof.
  intros Hx Hnh Hok. revert mm. induction xs as [|y xs IH]; intros mm.
  - by apply not_elem_of_nil in Hx.
  - cbn [sweep]. destruct (decide (x = y)) as [<-|Hne].
    + rewrite decide_False by done. unfold add. rewrite Hok.
      etrans; [|apply sweep_grows]. cbn [copied].
      rewrite occurrences_app. unfold occurrences at 3.
      rewrite filter_cons, decide_True by done. simpl. lia.
    + apply elem_of_cons in Hx as [?|Hx]; [done|].
      destruct (decide (is_a y ∈ handled_types)); [by apply IH|].
      destruct (add lib mm (mkCopied p y)) as [mm'|e] eqn:Hadd.
      * apply add_inv in Hadd as [_ Hc].
        etrans; [|apply (IH Hx)]. rewrite Hc, occurrences_app. lia.
      * specialize (IH Hx mm). by destruct (sweep lib p xs mm).
Qed.

Lemma copy_passes_copies (p : string) (m : IfcFile) (x : Entity) (st : MergeState) :
  x ∈ by_type lib m "IfcRelAssociatesMaterial"
  ∨ x ∈ by_type lib m "IfcPresentationLayerAssignment" →
  (∀ mm, add_raises lib mm (mkCopied p x) = None) →
  (S (occurrences (mkCopied p x) (copied (merged_model st)))
   ≤ occurrences (mkCopied p x)
       (copied (merged_model (copy_passes lib p m st))))%nat.
Proof.
  intros Hx Hok.
  unfold copy_passes, pass_layers, pass_material_relations, with_merged.
  cbn [merged_model]. destruct Hx as [Hx|Hx].
  - etrans; [|apply copy_loop_grows]. by apply copy_loop_copies.
  - etrans; [|by apply copy_loop_copies]. apply le_n_S, copy_loop_grows.
Qed.
End Sweep.

(** X10.  When no copy fails, the final sweep adds exactly the entities
    of the file whose type is none of the seven handled types, in the
    file's order, and prints nothing. *)
Theorem sweep_copies_all_others {FS : Type} (lib : Library FS) (p : string)
    (m : IfcFile) (st : MergeState) :
  never_raises lib →
  let st7 := copy_passes lib p m (dedup_passes lib p m st) in
  copied (merged_model (process_model lib p m st).1)
  = copied (merged_model st7)
    ++ (mkCopied p <$> filter (λ x, is_a x ∉ handled_types) (entities m))
  ∧ (process_model lib p m st).2 = [].
Proof.
  intros Hnr st7. unfold process_model. fold st7.
  rewrite (sweep_all lib p (entities m) (merged_model st7) Hnr). done.
Qed.

Lemma sweep_copies_all_others_witness :
  let st7 :=
    copy_passes Example.flat "b.ifc" Example.second_file
      (dedup_passes Example.flat "b.ifc" Example.second_file Example.base_state) in
  copied (merged_model
            (process_model Example.flat "b.ifc" Example.second_file
               Example.base_state).1)
  = copied (merged_model st7)
    ++ (mkCopied "b.ifc"
          <$> filter (λ x, is_a x ∉ handled_types) (entities Example.second_file))
  ∧ (process_model Example.flat "b.ifc" Example.second_file Example.base_state).2
    = [].
Proof.
  apply (sweep_copies_all_others Example.flat "b.ifc" Example.second_file
           Example.base_state).
  exact flat_never_raises.
Defined.

(** X11.  The passes select by type with subtypes, the sweep skips by
    exact type name: an entity of a proper subtype of a relation or
    layer-assignment type (its own type name is none of the seven) is
    handed to [add] by the unconditional pass and again by the sweep.
    When the calls of [add] on it do not raise, one processing of its
    file makes at least two calls on it that return.  (This counts the
    calls; the library holds an instance once.) *)
Theorem subtype_instance_is_handed_to_add_twice {FS : Type} (lib : Library FS)
    (fsys : FS) (p : string) (m : IfcFile) (x : Entity) (st : MergeState) :
  path_exists lib fsys p = true →
  ifc_open lib fsys p = Ok m →
  x ∈ by_type lib m "IfcRelAssociatesMaterial"
  ∨ x ∈ by_type lib m "IfcPresentationLayerAssignment" →
  is_a x ∉ handled_types →
  (∀ mm, add_raises lib mm (mkCopied p x) = None) →
  (2 + occurrences (mkCopied p x) (copied (merged_model st))
   ≤ occurrences (mkCopied p x)
       (copied (merged_model (merge_file lib fsys p st).1)))%nat.
Proof.
  intros He Ho Hx Hnh Hok.
  rewrite (merge_file_opened lib fsys p m st He Ho), process_model_fst.
  cbn [merged_model with_merged].
  assert (x ∈ entities m) as Hin
    by (destruct Hx as [Hx|Hx]; by apply by_type_elem in Hx as [_ ?]).
  etrans; [|by apply sweep_copies].
  apply le_n_S. etrans; [|by apply copy_passes_copies].
  apply le_n_S.
  destruct (dedup_passes_spec lib p m st) as (? & ? & ? & ? & ? & Ha & _).
  by eapply occurrences_added.
Qed.

Lemma subtype_instance_is_handed_to_add_twice_witness :
  let c :=
    mkCopied "l.ifc"
      (Example.plain 20 "IfcPresentationLayerWithStyle" (Some "A-WALL")) in
  (2 + occurrences c (copied (merged_model Example.base_state))
   ≤ occurrences c
       (copied (merged_model
                  (merge_file Example.layered Example.layer_site "l.ifc"
                     Example.base_state).1)))%nat.
Proof.
  apply (subtype_instance_is_handed_to_add_twice Example.layered Example.layer_site
           "l.ifc"
           (mkIfcFile "IFC4"
              [Example.plain 20 "IfcPresentationLayerWithStyle" (Some "A-WALL")])).
  - reflexivity.
  - reflexivity.
  - right. apply by_type_elem. split; [reflexivity|]. apply list_elem_of_here.
  - apply (bool_decide_unpack _). by vm_compute.
  - reflexivity.
Defined.


(** ** The command line and the writer *)

Section Process.
Context {FS : Type} (lib : Library FS).

Lemma import_base_none_iff (fsys : FS) (base : string) :
  (import_base lib fsys base).1 = None
  ↔ path_exists lib fsys base = false ∨ (∃ e, ifc_open lib fsys base = Raise e).
Proof.
  split; [|apply import_base_failed].
  destruct (path_exists lib fsys base) eqn:He; [|by left].
  destruct (ifc_open lib fsys base) as [bm|e] eqn:Ho; [|right; by exists e].
  destruct (import_base_opens lib fsys base bm He Ho) as (st0 & out0 & ->).
  discriminate.
Qed.

Lemma main_usage (argv : list string) (w : World FS) :
  (length argv < 3)%nat → main lib argv w = (1, prints w usage).
Proof.
  intros Hlen. unfold main.
  rewrite decide_False by (intros [? _]; lia).
  by rewrite decide_True.
Qed.

Lemma validate_stdout (f : string) (w : World FS) :
  ∃ out, stdout (validate_ifc_colors lib f w) = stdout w ++ out.
Proof.
  unfold validate_ifc_colors. cbn [fs prints].
  destruct (ifc_open lib (fs w) f) as [model|e].
  - destruct (report lib model) as [out [e|]]; unfold prints; cbn [stdout];
      rewrite <- app_assoc; by eexists.
  - unfold prints. cbn [stdout]. rewrite <- app_assoc. by eexists.
Qed.

Lemma merge_stdout_write_failed (base : string) (rest : list string) (out : string)
    (w : World FS) (st0 : MergeState) (out0 : list string) (fs' : FS) (e : string) :
  import_base lib (fs w) base = (Some st0, out0) →
  ifc_write lib (fs w) out (merged_model (merge_rest lib (fs w) rest st0).1)
  = (fs', Some e) →
  ∃ pre,
    stdout (merge_ifc_files_with_color_priority lib (base :: rest) out w).2
    = pre ++ [nl +:+ "Ошибка при записи объединенного файла " +:+ out +:+ ": " +:+ e].
Proof.
  intros Hi Hw. unfold merge_ifc_files_with_color_priority. rewrite Hi.
  destruct (merge_rest lib (fs w) rest st0) as [st' out']. cbn [fst snd] in *.
  unfold write_merged. cbn [fs prints]. rewrite Hw. cbn [stdout]. by eexists.
Qed.

Lemma rgb_line_ok_iff (c : Entity) : (∃ line, rgb_line c = Ok line) ↔ has_rgb c.
Proof.
  unfold rgb_line, has_rgb.
  destruct (Red c), (Green c), (Blue c); split;
    first [by intros [? [=]] | intros (H1 & H2 & H3);
           first [by destruct H1 | by destruct H2 | by destruct H3]
          | by eexists | by repeat split].
Qed.

Lemma rgb_lines_none_iff (cs : list Entity) :
  (rgb_lines cs).2 = None ↔ Forall has_rgb cs.
Proof.
  induction cs as [|c cs IH]; [by split|].
  cbn [rgb_lines]. destruct (rgb_line c) as [line|e] eqn:Hl.
  - assert (has_rgb c) as Hc by (apply rgb_line_ok_iff; by eexists).
    destruct (rgb_lines cs) as [out o]. cbn [snd] in *.
    rewrite IH. split; [by constructor|by intros [_ ?]%Forall_cons].
  - cbn [snd]. split; [done|]. intros [Hc _]%Forall_cons.
    apply rgb_line_ok_iff in Hc as [line Hc]. congruence.
Qed.
End Process.

(** X12.  The exit status of the process is 0 or 1, and it is 1 in two
    cases only: fewer than three arguments (usage), or a merge run (the
    second argument is not "--analyze") whose base file does not exist
    or does not open.  Nothing else makes a run fail: not a missing
    secondary file, not a failed copy, not a failed write. *)
Theorem exit_status {FS : Type} (lib : Library FS) (argv : list string)
    (w : World FS) :
  let base := default "" (argv !! 2%nat) in
  ((main lib argv w).1 = 0 ∨ (main lib argv w).1 = 1)
  ∧ ((main lib argv w).1 = 1
     ↔ (length argv < 3)%nat
       ∨ (argv !! 1%nat ≠ Some "--analyze"
          ∧ (path_exists lib (fs w) base = false
             ∨ ∃ e, ifc_open lib (fs w) base = Raise e))).
Proof.
  cbn zeta. destruct (decide (length argv < 3)%nat) as [Hlt|Hge].
  { rewrite (main_usage lib argv w Hlt). cbn [fst]. split; [by right|].
    split; [by left|done]. }
  destruct argv as [|prog [|out [|base rest]]]; [cbn in Hge; lia..|].
  cbn [lookup list_lookup default].
  destruct (decide (out = "--analyze")) as [->|Hne].
  { rewrite main_analyze. cbn [fst]. split; [by left|]. split; [done|].
    intros [?|[Hn _]]; [cbn in *; lia|done]. }
  rewrite (main_merge lib prog out base rest w Hne). cbn zeta.
  set (w1 := validate_ifc_colors lib base _).
  assert (fs w1 = fs w) as Hfs by (unfold w1; by rewrite validate_fs).
  pose proof (import_base_none_iff lib (fs w) base) as Hiff.
  destruct (import_base lib (fs w) base) as [[st0|] out0] eqn:Hi.
  - rewrite <- Hfs in Hi.
    destruct (merge_returns lib base rest out w1 st0 out0 Hi) as [Hr _].
    destruct (merge_ifc_files_with_color_priority lib (base :: rest) out w1)
      as [c w2]. cbn [fst] in Hr. subst c. cbn [fst].
    split; [by left|]. split; [done|].
    intros [?|[_ Hbad]]; [cbn in *; lia|].
    apply Hiff in Hbad. discriminate.
  - rewrite merge_aborts by (by rewrite Hfs, Hi). cbn [fst].
    split; [by right|]. split; [|done]. intros _. right.
    split; [by intros [= ?]|]. by apply Hiff.
Qed.

(** X13.  What the process does to the file system, run by run.  With
    fewer than three arguments (usage) and with --analyze it leaves the
    file system as it was found.  In a merge run it leaves it as found
    when the base file is missing or unreadable; when the base file was
    imported, the file system at the end is exactly what the library's
    write of the output model to the first argument left, and nothing
    else has touched it. *)
Theorem only_the_output_is_written {FS : Type} (lib : Library FS)
    (argv : list string) (w : World FS) :
  ((length argv < 3)%nat → fs (main lib argv w).2 = fs w)
  ∧ (∀ prog f rest,
       argv = prog :: "--analyze" :: f :: rest → fs (main lib argv w).2 = fs w)
  ∧ (∀ prog out base rest,
       argv = prog :: out :: base :: rest → out ≠ "--analyze" →
       fs (main lib argv w).2
       = match (import_base lib (fs w) base).1 with
         | None => fs w
         | Some st0 =>
             (ifc_write lib (fs w) out
                (merged_model (merge_rest lib (fs w) rest st0).1)).1
         end).
Proof.
  split; [|split].
  - intros Hlt. by rewrite (main_usage lib argv w Hlt).
  - intros prog f rest ->. rewrite main_analyze. apply validate_fs.
  - intros prog out base rest -> Hne.
    destruct (import_base lib (fs w) base) as [[st0|] out0] eqn:Hi; cbn [fst].
    + by destruct (main_merge_returns lib prog out base rest w st0 out0 Hne Hi).
    + rewrite (main_merge lib prog out base rest w Hne). cbn zeta.
      set (w1 := validate_ifc_colors lib base _).
      assert (fs w1 = fs w) as Hfs by (unfold w1; by rewrite validate_fs).
      rewrite merge_aborts by (by rewrite Hfs, Hi). done.
Qed.

(** X14.  A failed write is a soft failure: when writing the output
    model raises, the error is printed, the process still analyses the
    output path and exits with status 0, and the file system is whatever
    the failed write left. *)
Theorem write_failure_is_only_logged {FS : Type} (lib : Library FS)
    (prog out base : string) (rest : list string) (w : World FS)
    (st0 : MergeState) (out0 : list string) (fs' : FS) (e : string) :
  out ≠ "--analyze" →
  import_base lib (fs w) base = (Some st0, out0) →
  ifc_write lib (fs w) out (merged_model (merge_rest lib (fs w) rest st0).1)
  = (fs', Some e) →
  (main lib (prog :: out :: base :: rest) w).1 = 0
  ∧ fs (main lib (prog :: out :: base :: rest) w).2 = fs'
  ∧ (nl +:+ "Ошибка при записи объединенного файла " +:+ out +:+ ": " +:+ e)
    ∈ stdout (main lib (prog :: out :: base :: rest) w).2.
Proof.
  intros Hne Hi Hw.
  destruct (main_merge_returns lib prog out base rest w st0 out0 Hne Hi)
    as [Hexit Hfs].
  split; [done|]. split; [by rewrite Hfs, Hw|].
  rewrite (main_merge lib prog out base rest w Hne). cbn zeta.
  set (w1 := validate_ifc_colors lib base _).
  assert (fs w1 = fs w) as Hfs1 by (unfold w1; by rewrite validate_fs).
  rewrite <- Hfs1 in Hi, Hw.
  destruct (merge_returns lib base rest out w1 st0 out0 Hi) as [Hr _].
  destruct (merge_stdout_write_failed lib base rest out w1 st0 out0 fs' e Hi Hw)
    as (pre & Hpre).
  destruct (merge_ifc_files_with_color_priority lib (base :: rest) out w1)
    as [c w2]. cbn [fst snd] in *. subst c. cbn [snd].
  destruct (validate_stdout lib out
              (prints w2 [nl +:+ "=== Analysis of result ==="])) as (tail & ->).
  cbn [stdout prints]. rewrite Hpre.
  rewrite !elem_of_app. left; left; right. apply list_elem_of_here.
Qed.

Lemma write_failure_is_only_logged_witness :
  let run :=
    main Example.read_only ["mergeifc.py"; "out.ifc"; "base.ifc"; "b.ifc"]
      (mkWorld Example.site []) in
  run.1 = 0
  ∧ fs run.2 = Example.site
  ∧ (nl +:+ "Ошибка при записи объединенного файла " +:+ "out.ifc" +:+ ": "
       +:+ "Permission denied")
    ∈ stdout run.2.
Proof.
  apply (write_failure_is_only_logged Example.read_only "mergeifc.py" "out.ifc"
           "base.ifc" ["b.ifc"] (mkWorld Example.site [])
           (default Example.empty_state
              (import_base Example.read_only Example.site "base.ifc").1)
           (import_base Example.read_only Example.site "base.ifc").2
           Example.site "Permission denied").
  - discriminate.
  - reflexivity.
  - reflexivity.
Defined.

(** X15.  The analyzer's report is complete exactly when each of the
    first three colours of the file has its three components: a null
    component there ends the report with a logged error, and the
    colours after the third are never read. *)
Theorem colour_samples_complete_iff {FS : Type} (lib : Library FS)
    (model : IfcFile) :
  (report lib model).2 = None
  ↔ Forall has_rgb (take 3 (by_type lib model "IfcColourRgb")).
Proof.
  rewrite <- rgb_lines_none_iff. unfold report.
  by destruct (rgb_lines (take 3 (by_type lib model "IfcColourRgb"))) as [out [e|]].
Qed.

(** ** The deduplicating loop when nothing fails *)

(** X16.  When no copy fails, a deduplicating pass copies exactly one
    candidate for each key that was not known: the copied entities are
    candidates in their order, their keys are pairwise distinct, and
    the set of their keys is the set of the candidates' keys minus the
    known set. *)
Theorem dedup_pass_copies_each_new_key_once {FS : Type} (lib : Library FS)
    {K : Type} {EqK : EqDecision K} {CountK : Countable K}
    (key : Entity → K) (p : string) (xs : list Entity) (mm : Merged)
    (known : gset K) :
  never_raises lib →
  ∃ cs,
    copied (dedup_loop lib key p xs mm known).1 = copied mm ++ (mkCopied p <$> cs)
    ∧ sublist cs xs
    ∧ NoDup (key <$> cs)
    ∧ list_to_set (key <$> cs) = list_to_set (key <$> xs) ∖ known.
Proof.
  intros Hnr.
  destruct (dedup_loop_spec lib key p xs mm known) as (cs & Heq & Hs & Hk & Hd & _).
  pose proof (dedup_loop_learns lib key p xs mm known Hnr) as Hl.
  rewrite Heq in Hl. cbn [snd] in Hl.
  exists cs. rewrite Heq. cbn [fst copied]. split; [done|]. split; [done|].
  split; [done|]. apply set_eq. intros k.
  rewrite elem_of_difference. split.
  - intros Hin. split.
    + assert (k ∈ known ∪ list_to_set (key <$> xs)) as [Hkn|?]%elem_of_union;
        [rewrite <- Hl; by apply elem_of_union_r| |done].
      apply elem_of_list_to_set, list_elem_of_fmap in Hin as (x & -> & Hx).
      by destruct (Hk x Hx).
    + apply elem_of_list_to_set, list_elem_of_fmap in Hin as (x & -> & Hx).
      by apply Hk.
  - intros [Hin Hnk].
    assert (k ∈ known ∪ list_to_set (key <$> cs)) as [?|?]%elem_of_union;
      [rewrite Hl; by apply elem_of_union_r|done|done].
Qed.

Lemma dedup_pass_copies_each_new_key_once_witness :
  ∃ cs,
    copied (dedup_loop Example.flat (name_key Example.flat) "b.ifc"
              (by_type Example.flat Example.second_file "IfcMaterial")
              (merged_model Example.base_state)
              (known_materials Example.base_state)).1
    = copied (merged_model Example.base_state) ++ (mkCopied "b.ifc" <$> cs)
    ∧ sublist cs (by_type Example.flat Example.second_file "IfcMaterial")
    ∧ NoDup (name_key Example.flat <$> cs)
    ∧ list_to_set (name_key Example.flat <$> cs)
      = list_to_set
          (name_key Example.flat
             <$> by_type Example.flat Example.second_file "IfcMaterial")
        ∖ known_materials Example.base_state.
Proof.
  apply (dedup_pass_copies_each_new_key_once Example.flat (name_key Example.flat)
           "b.ifc" (by_type Example.flat Example.second_file "IfcMaterial")
           (merged_model Example.base_state) (known_materials Example.base_state)).
  exact flat_never_raises.
Defined.
